(** * Koe: the recording lifecycle controller

    A shallow embedding of the recording state machine
    (state-machine.ts), the orchestrator (orchestrator.ts), the status
    widget broadcast (recording-widget.ts) and the global hotkey service
    (hotkey-service.ts), with the properties of the lifecycle
    specification stated and settled against them.

    Conventions.
    - Times are milliseconds as [Z]; [Date.now()] is an input of the
      call that reads it.
    - An [EventEmitter.emit] is the last statement of every path that
      emits, so a method returns the list of events it emitted and the
      caller dispatches them to the listeners afterwards; this is the
      order in which the JavaScript runs them.
    - [console.log] / [console.warn] output is not modelled. *)

From Stdlib Require Import ZArith List Bool String Ascii Lia.
Import ListNotations.
Local Open Scope Z_scope.

(* ================================================================== *)
(** ** The recording state machine (state-machine.ts)                  *)
(* ================================================================== *)

Module StateMachine.

Inductive RecordingState : Type :=
  | idle | recording | processing | inserting | error.

Inductive StateTrigger : Type :=
  | hotkey_press
  | hotkey_release
  | transcription_complete
  | insertion_complete
  | trigger_error          (* the trigger 'error' *)
  | trigger_reset.         (* the trigger 'reset' *)

Scheme Equality for RecordingState.
Scheme Equality for StateTrigger.

Notation "a =s? b" := (RecordingState_beq a b) (at level 70).
Notation "a =t? b" := (StateTrigger_beq a b) (at level 70).

(** [VALID_TRANSITIONS[state]?.[trigger]]: [None] is JavaScript's
    [undefined]. *)
Definition VALID_TRANSITIONS (s : RecordingState) (t : StateTrigger)
  : option RecordingState :=
  match s, t with
  | idle, hotkey_press => Some recording
  | recording, hotkey_release => Some processing
  | recording, trigger_error => Some idle
  | processing, transcription_complete => Some inserting
  | processing, trigger_error => Some idle
  | inserting, insertion_complete => Some idle
  | inserting, trigger_error => Some idle
  | error, trigger_reset => Some idle
  | _, _ => None
  end.

(** The one event the machine emits: [stateChange(state, previousState)]. *)
Inductive Event : Type :=
  | stateChange (state previousState : RecordingState).

Record RecordingStateMachine : Type := mkMachine {
  _currentState : RecordingState;
  _recordingStartTime : option Z;          (* number | null *)
  _minRecordingDuration : Z
}.

(** [constructor(minRecordingDuration: number = 200)]. *)
Definition new_RecordingStateMachine (minRecordingDuration : option Z)
  : RecordingStateMachine :=
  {| _currentState := idle;
     _recordingStartTime := None;
     _minRecordingDuration :=
       match minRecordingDuration with Some d => d | None => 200 end |}.

(** [!this._recordingStartTime]: [null] and the number [0] are both
    falsy. *)
Definition falsy (t : option Z) : bool :=
  match t with
  | None => true
  | Some v => v =? 0
  end.

Definition getRecordingDuration (now : Z) (m : RecordingStateMachine) : Z :=
  match _recordingStartTime m with
  | None => 0
  | Some t => if falsy (Some t) then 0 else now - t
  end.

Definition set_state (s : RecordingState) (m : RecordingStateMachine) :=
  {| _currentState := s;
     _recordingStartTime := _recordingStartTime m;
     _minRecordingDuration := _minRecordingDuration m |}.

Definition set_start (t : option Z) (m : RecordingStateMachine) :=
  {| _currentState := _currentState m;
     _recordingStartTime := t;
     _minRecordingDuration := _minRecordingDuration m |}.

(** [transition(trigger)], with [now] the value [Date.now()] has during
    the call.  The result is the returned boolean, the machine after the
    call and the events emitted, oldest first. *)
Definition transition (now : Z) (trigger : StateTrigger)
    (m : RecordingStateMachine)
  : bool * RecordingStateMachine * list Event :=
  match VALID_TRANSITIONS (_currentState m) trigger with
  | None => (false, m, [])
  | Some nextState =>
      let m1 :=
        if (trigger =t? hotkey_press) && (nextState =s? recording)
        then set_start (Some now) m else m in
      if (trigger =t? hotkey_release) && (_currentState m1 =s? recording)
         && (getRecordingDuration now m1 <? _minRecordingDuration m1)
      then
        let previousState := _currentState m1 in
        (false, set_start None (set_state idle m1),
         [stateChange idle previousState])
      else
        let previousState := _currentState m1 in
        let m2 := set_state nextState m1 in
        let m3 := if nextState =s? idle then set_start None m2 else m2 in
        (true, m3, [stateChange nextState previousState])
  end.

(** [reset()]. *)
Definition reset (m : RecordingStateMachine)
  : RecordingStateMachine * list Event :=
  let previousState := _currentState m in
  let m1 := set_start None (set_state idle m) in
  if negb (previousState =s? idle)
  then (m1, [stateChange idle previousState])
  else (m1, []).

Definition canTransition (trigger : StateTrigger)
    (m : RecordingStateMachine) : bool :=
  match VALID_TRANSITIONS (_currentState m) trigger with
  | Some _ => true
  | None => false
  end.

(** A client's use of the machine: a finite sequence of calls. *)
Inductive Call : Type :=
  | call_transition (trigger : StateTrigger) (now : Z)
  | call_reset.

Definition call (c : Call) (m : RecordingStateMachine)
  : RecordingStateMachine :=
  match c with
  | call_transition t now => snd (fst (transition now t m))
  | call_reset => fst (reset m)
  end.

Definition run (cs : list Call) (m : RecordingStateMachine)
  : RecordingStateMachine :=
  fold_left (fun acc c => call c acc) cs m.

(** The events a sequence of calls emits, oldest first. *)
Fixpoint emitted (cs : list Call) (m : RecordingStateMachine) : list Event :=
  match cs with
  | [] => []
  | c :: rest =>
      (match c with
       | call_transition t now => snd (transition now t m)
       | call_reset => snd (reset m)
       end) ++ emitted rest (call c m)
  end.

(** The machine after [new RecordingStateMachine(min)] and a sequence of
    calls keeps its start time exactly while a session is open, and is
    never in ['error']. *)
Definition session_inv (m : RecordingStateMachine) : Prop :=
  match _currentState m with
  | idle => _recordingStartTime m = None
  | error => False
  | _ => exists t, _recordingStartTime m = Some t
  end.

End StateMachine.

(* ================================================================== *)
(** ** The status widgets (recording-widget.ts)                        *)
(* ================================================================== *)

Module Widget.

Inductive WidgetState : Type :=
  | w_idle | w_recording | w_processing | w_success | w_error.

Scheme Equality for WidgetState.

(** A widget window: whether it was destroyed, and the
    ['widget-state-update'] messages its web contents received, oldest
    first. *)
Record BrowserWindow : Type := mkWindow {
  isDestroyed : bool;
  received : list WidgetState
}.

(** [widgets] is the [Map<number, BrowserWindow>] in insertion order. *)
Record RecordingWidget : Type := mkWidget {
  widgets : list (nat * BrowserWindow);
  currentState : WidgetState
}.

Definition send (state : WidgetState) (win : BrowserWindow) : BrowserWindow :=
  {| isDestroyed := isDestroyed win; received := received win ++ [state] |}.

(** [updateAllWidgets(state)]: destroyed windows are dropped from the
    map, every other window is sent the state. *)
Definition updateAllWidgets (state : WidgetState) (rw : RecordingWidget)
  : RecordingWidget :=
  {| widgets :=
       map (fun e => (fst e, send state (snd e)))
           (filter (fun e => negb (isDestroyed (snd e))) (widgets rw));
     currentState := state |}.

End Widget.

(* ================================================================== *)
(** ** The orchestrator (orchestrator.ts)                              *)
(* ================================================================== *)

Module Orchestrator.
Import StateMachine Widget.

(** Instructions sent to the capture surface. *)
Inductive RendererMessage : Type :=
  | start_recording | stop_recording | reset_recording_state.

Inductive InsertionMethod : Type :=
  | paste | clipboard_only.

(** The calls the orchestrator makes on its collaborators, in the
    order it makes them. *)
Inductive Effect : Type :=
  | CaptureActiveApp                         (* textInsertionService.captureActiveApp() *)
  | SubmitTrigger (t : StateTrigger)         (* stateMachine.transition(t) *)
  | ResetMachine                             (* stateMachine.reset() *)
  | WidgetPush (s : WidgetState)             (* widget.updateAllWidgets(s) *)
  | RendererSend (msg : RendererMessage)     (* mainWindow.webContents.send(msg) *)
  | Insert (text : string)                   (* textInsertionService.insert(text) *)
  | CopyToClipboardOnly (text : string).     (* textInsertionService.copyToClipboardOnly(text) *)

(** The closures handed to [setTimeout]. *)
Inductive TimerCallback : Type :=
  | ProcessingWatchdog     (* 30 s, armed on entering 'processing' *)
  | WatchdogGrace          (* 3 s, armed by the watchdog *)
  | FeedbackDone           (* 2 s, armed by the completion handler *)
  | DeferredError.         (* 3 s, armed by the error handler *)

Record Timer : Type := mkTimer {
  timerId : nat;
  callback : TimerCallback;
  delay : Z
}.

Definition PROCESSING_TIMEOUT_MS : Z := 30000.

(** The orchestrator together with the singletons it drives. *)
Record World : Type := mkWorld {
  stateMachine : RecordingStateMachine;
  clock : Z;                          (* what Date.now() returns *)
  isRecording : bool;
  processingTimeout : option nat;     (* NodeJS.Timeout | null *)
  feedbackTimeout : option nat;
  pending : list Timer;               (* timers armed and not yet fired or cleared *)
  nextTimer : nat;
  rendererReady : bool;               (* what isRendererReady() returns *)
  widget : RecordingWidget;
  trace : list Effect                 (* oldest first *)
}.

Definition with_machine (m : RecordingStateMachine) (w : World) : World :=
  mkWorld m (clock w) (isRecording w) (processingTimeout w) (feedbackTimeout w)
          (pending w) (nextTimer w) (rendererReady w) (widget w) (trace w).

Definition with_isRecording (b : bool) (w : World) : World :=
  mkWorld (stateMachine w) (clock w) b (processingTimeout w) (feedbackTimeout w)
          (pending w) (nextTimer w) (rendererReady w) (widget w) (trace w).

Definition with_processingTimeout (h : option nat) (w : World) : World :=
  mkWorld (stateMachine w) (clock w) (isRecording w) h (feedbackTimeout w)
          (pending w) (nextTimer w) (rendererReady w) (widget w) (trace w).

Definition with_feedbackTimeout (h : option nat) (w : World) : World :=
  mkWorld (stateMachine w) (clock w) (isRecording w) (processingTimeout w) h
          (pending w) (nextTimer w) (rendererReady w) (widget w) (trace w).

Definition with_pending (p : list Timer) (w : World) : World :=
  mkWorld (stateMachine w) (clock w) (isRecording w) (processingTimeout w)
          (feedbackTimeout w) p (nextTimer w) (rendererReady w) (widget w)
          (trace w).

Definition log (e : Effect) (w : World) : World :=
  mkWorld (stateMachine w) (clock w) (isRecording w) (processingTimeout w)
          (feedbackTimeout w) (pending w) (nextTimer w) (rendererReady w)
          (widget w) (trace w ++ [e]).

(** [setTimeout(cb, ms)]: arms a fresh timer and returns its handle. *)
Definition setTimeout (cb : TimerCallback) (ms : Z) (w : World) : nat * World :=
  let id := nextTimer w in
  (id,
   mkWorld (stateMachine w) (clock w) (isRecording w) (processingTimeout w)
           (feedbackTimeout w) (pending w ++ [mkTimer id cb ms]) (S id)
           (rendererReady w) (widget w) (trace w)).

(** [clearTimeout(handle)]: disarms the timer if it is still armed. *)
Definition clearTimeout (id : nat) (w : World) : World :=
  with_pending (filter (fun t => negb (Nat.eqb (timerId t) id)) (pending w)) w.

(** [widget.updateAllWidgets(state)]. *)
Definition push (s : WidgetState) (w : World) : World :=
  let w1 := log (WidgetPush s) w in
  mkWorld (stateMachine w1) (clock w1) (isRecording w1) (processingTimeout w1)
          (feedbackTimeout w1) (pending w1) (nextTimer w1) (rendererReady w1)
          (updateAllWidgets s (widget w1)) (trace w1).

Definition clearProcessingTimeout (w : World) : World :=
  let w1 :=
    match processingTimeout w with
    | Some id => with_processingTimeout None (clearTimeout id w)
    | None => w
    end in
  match feedbackTimeout w1 with
  | Some id => with_feedbackTimeout None (clearTimeout id w1)
  | None => w1
  end.

Definition stopRecordingInRenderer (w : World) : World :=
  if rendererReady w then log (RendererSend stop_recording) w else w.

Definition resetRendererRecordingState (w : World) : World :=
  if rendererReady w then log (RendererSend reset_recording_state) w else w.

(** The ['idle'] arm of the [stateChange] listener. *)
Definition onStateChange_idle (previousState : RecordingState) (w : World)
  : World :=
  let w1 := with_isRecording false (clearProcessingTimeout w) in
  let w2 := if negb (previousState =s? idle)
            then resetRendererRecordingState w1 else w1 in
  if negb (previousState =s? inserting) && negb (previousState =s? processing)
  then push w_idle w2 else w2.

(** [stateMachine.reset()] as the orchestrator calls it: the machine's
    [reset], then the listener on the event it emitted.  [reset] only
    ever emits [stateChange('idle', _)], which the listener's switch
    sends to its ['idle'] arm. *)
Definition sm_reset (w : World) : World :=
  let '(m, evs) := reset (stateMachine w) in
  fold_left
    (fun acc e =>
       match e with stateChange _ previousState =>
         onStateChange_idle previousState acc end)
    evs (with_machine m (log ResetMachine w)).

Definition startRecordingInRenderer (w : World) : World :=
  if rendererReady w then log (RendererSend start_recording) w
  else sm_reset w.

(** The [stateChange] listener of [setupStateMachineListeners]. *)
Definition onStateChange (e : Event) (w : World) : World :=
  match e with
  | stateChange state previousState =>
      match state with
      | recording =>
          startRecordingInRenderer (push w_recording w)
      | processing =>
          let w1 := stopRecordingInRenderer (push w_processing w) in
          let w2 := clearProcessingTimeout w1 in
          let '(id, w3) := setTimeout ProcessingWatchdog PROCESSING_TIMEOUT_MS w2 in
          with_processingTimeout (Some id) w3
      | inserting =>
          clearProcessingTimeout w
      | idle =>
          onStateChange_idle previousState w
      | error =>
          push w_error (clearProcessingTimeout w)
      end
  end.

(** [stateMachine.transition(trigger)] as the orchestrator calls it. *)
Definition sm_transition (trigger : StateTrigger) (w : World) : bool * World :=
  let '(ok, m, evs) := transition (clock w) trigger (stateMachine w) in
  (ok,
   fold_left (fun acc e => onStateChange e acc) evs
             (with_machine m (log (SubmitTrigger trigger) w))).

(** The getter [stateMachine.currentState]. *)
Definition sm_currentState (w : World) : RecordingState :=
  _currentState (stateMachine w).

(** The timer closures. *)
Definition runCallback (cb : TimerCallback) (w : World) : World :=
  match cb with
  | ProcessingWatchdog =>
      if sm_currentState w =s? processing then
        let w1 := push w_error w in
        let '(id, w2) := setTimeout WatchdogGrace 3000 w1 in
        with_feedbackTimeout (Some id) w2
      else w
  | WatchdogGrace =>
      if sm_currentState w =s? processing then
        snd (sm_transition trigger_error (push w_idle w))
      else w
  | FeedbackDone =>
      if sm_currentState w =s? inserting then
        snd (sm_transition insertion_complete (push w_idle w))
      else w
  | DeferredError =>
      if sm_currentState w =s? processing then
        snd (sm_transition trigger_error (push w_idle w))
      else w
  end.

(** An armed timer expires: it leaves the armed set and its closure
    runs.  The handle fields keep their (now stale) value, as in Node. *)
Definition fireTimer (id : nat) (w : World) : World :=
  match find (fun t => Nat.eqb (timerId t) id) (pending w) with
  | Some t => runCallback (callback t) (clearTimeout id w)
  | None => w
  end.

(** The [hotkeyService.onPress] callback, run to completion: the
    handler as it runs when its [await] settles before anything else
    reaches the orchestrator.  Its two parts are [pressBegin] and
    [resume] below. *)
Definition onHotkeyPress (w : World) : World :=
  match sm_currentState w with
  | idle =>
      let w1 := log CaptureActiveApp w in
      with_isRecording true (snd (sm_transition hotkey_press w1))
  | recording =>
      with_isRecording false (snd (sm_transition hotkey_release w))
  | error =>
      let w1 := sm_reset w in
      let w2 := log CaptureActiveApp w1 in
      with_isRecording true (snd (sm_transition hotkey_press w2))
  | _ => w
  end.

(** The ['widget-toggle-recording'] IPC handler. *)
Definition onWidgetToggle (w : World) : World :=
  match sm_currentState w with
  | idle =>
      let w1 := log CaptureActiveApp w in
      with_isRecording true (snd (sm_transition hotkey_press w1))
  | recording =>
      with_isRecording false (snd (sm_transition hotkey_release w))
  | _ => w
  end.

(** The ['transcription-complete'] IPC handler, in the two parts the
    [await] on [insert] splits it into.  [insertionMethod] is what
    [configService.getInsertionMethod()] returns and [success] the
    [result.success] of the delivery call. *)
Definition completionDeliver (insertionMethod : InsertionMethod)
    (text : string) (w : World) : World :=
  let w1 := snd (sm_transition transcription_complete w) in
  match insertionMethod with
  | clipboard_only => log (CopyToClipboardOnly text) w1
  | paste => log (Insert text) w1
  end.

Definition completionFeedback (success : bool) (w : World) : World :=
  let w1 := push (if success then w_success else w_error) w in
  let '(id, w2) := setTimeout FeedbackDone 2000 w1 in
  with_feedbackTimeout (Some id) w2.

Definition onTranscriptionComplete (insertionMethod : InsertionMethod)
    (text : string) (success : bool) (w : World) : World :=
  if sm_currentState w =s? processing then
    completionFeedback success (completionDeliver insertionMethod text w)
  else w.

(** The ['transcription-error'] IPC handler. *)
Definition onTranscriptionError (w : World) : World :=
  let w1 := push w_error w in
  let '(id, w2) := setTimeout DeferredError 3000 w1 in
  with_feedbackTimeout (Some id) w2.

(** The ['hotkey-release'] IPC handler. *)
Definition onHotkeyRelease (w : World) : World :=
  if sm_currentState w =s? recording then
    with_isRecording false (snd (sm_transition hotkey_release w))
  else w.

(** *** Handlers that suspend

    The press, toggle and completion handlers are [async]: at an
    [await] the handler stops, other inputs are served, and the rest of
    the handler runs when the awaited call settles.  Each of them is
    given here in the part that runs at once and the part that runs on
    resumption; [onHotkeyPress], [onWidgetToggle] and
    [onTranscriptionComplete] above are the two parts run back to
    back. *)
Inductive Continuation : Type :=
  | AfterCapture                  (* after await captureActiveApp() *)
  | AfterInsert (success : bool). (* after await insert(text), with result.success *)

(** The press handler up to its [await]. *)
Definition pressBegin (w : World) : World * option Continuation :=
  match sm_currentState w with
  | idle => (log CaptureActiveApp w, Some AfterCapture)
  | recording =>
      (with_isRecording false (snd (sm_transition hotkey_release w)), None)
  | error => (log CaptureActiveApp (sm_reset w), Some AfterCapture)
  | _ => (w, None)
  end.

(** The toggle handler up to its [await]. *)
Definition toggleBegin (w : World) : World * option Continuation :=
  match sm_currentState w with
  | idle => (log CaptureActiveApp w, Some AfterCapture)
  | recording =>
      (with_isRecording false (snd (sm_transition hotkey_release w)), None)
  | _ => (w, None)
  end.

(** The completion handler up to its [await]; the clipboard-only
    branch has none and runs to its end. *)
Definition completionBegin (insertionMethod : InsertionMethod)
    (text : string) (success : bool) (w : World)
  : World * option Continuation :=
  if sm_currentState w =s? processing then
    match insertionMethod with
    | clipboard_only =>
        (completionFeedback success (completionDeliver clipboard_only text w),
         None)
    | paste => (completionDeliver paste text w, Some (AfterInsert success))
    end
  else (w, None).

(** The rest of a suspended handler.  After the capture:
    [stateMachine.transition('hotkey_press'); this.isRecording = true],
    in whatever state the machine is by then. *)
Definition resume (k : Continuation) (w : World) : World :=
  match k with
  | AfterCapture => with_isRecording true (snd (sm_transition hotkey_press w))
  | AfterInsert success => completionFeedback success w
  end.

(** [handleRendererCrash()].  [windowAlive] is
    [this.mainWindow && !this.mainWindow.isDestroyed()]; the second
    component is the delay of the reload timer, when one is set. *)
Definition handleRendererCrash (windowAlive : bool) (w : World)
  : World * option Z :=
  (sm_reset (with_isRecording false w),
   if windowAlive then Some 1000 else None).

(** [stop()], as far as the world goes: [widget.destroy()] leaves no
    window, then [clearProcessingTimeout()].  The hotkey service it
    unregisters first lives outside the world. *)
Definition stop (w : World) : World :=
  clearProcessingTimeout
    (mkWorld (stateMachine w) (clock w) (isRecording w) (processingTimeout w)
             (feedbackTimeout w) (pending w) (nextTimer w) (rendererReady w)
             (mkWidget [] (currentState (widget w))) (trace w)).

(** A run of the orchestrator: the world, and the handlers that are
    suspended at an [await], oldest first. *)
Record Run : Type := mkRun {
  world : World;
  suspended : list Continuation
}.

Definition start (w : World) : Run := mkRun w [].

Definition suspend (r : World * option Continuation)
    (ks : list Continuation) : Run :=
  mkRun (fst r) (ks ++ match snd r with Some k => [k] | None => [] end).

(** What reaches the orchestrator from outside. *)
Inductive Input : Type :=
  | HotkeyPress
  | WidgetToggle
  | HotkeyReleaseIpc
  | TranscriptionComplete (m : InsertionMethod) (text : string) (success : bool)
  | TranscriptionError
  | TimerExpires (id : nat)
  | Resume (n : nat)                 (* the awaited call of the n-th suspended handler settles *)
  | RendererCrash (windowAlive : bool)
  | Stop
  | Tick (ms : Z)                    (* the clock advances *)
  | RendererReadiness (b : bool)     (* the capture surface comes or goes *)
  | WindowsChange (wins : list (nat * BrowserWindow)).
                                     (* displays come and go, windows are destroyed *)

Definition step (i : Input) (r : Run) : Run :=
  let w := world r in
  let ks := suspended r in
  match i with
  | HotkeyPress => suspend (pressBegin w) ks
  | WidgetToggle => suspend (toggleBegin w) ks
  | HotkeyReleaseIpc => mkRun (onHotkeyRelease w) ks
  | TranscriptionComplete m text success =>
      suspend (completionBegin m text success w) ks
  | TranscriptionError => mkRun (onTranscriptionError w) ks
  | TimerExpires id => mkRun (fireTimer id w) ks
  | Resume n =>
      match nth_error ks n with
      | Some k => mkRun (resume k w) (firstn n ks ++ skipn (S n) ks)
      | None => r
      end
  | RendererCrash windowAlive => mkRun (fst (handleRendererCrash windowAlive w)) ks
  | Stop => mkRun (stop w) ks
  | Tick ms =>
      mkRun (mkWorld (stateMachine w) (clock w + ms) (isRecording w)
                     (processingTimeout w) (feedbackTimeout w) (pending w)
                     (nextTimer w) (rendererReady w) (widget w) (trace w)) ks
  | RendererReadiness b =>
      mkRun (mkWorld (stateMachine w) (clock w) (isRecording w)
                     (processingTimeout w) (feedbackTimeout w) (pending w)
                     (nextTimer w) b (widget w) (trace w)) ks
  | WindowsChange wins =>
      mkRun (mkWorld (stateMachine w) (clock w) (isRecording w)
                     (processingTimeout w) (feedbackTimeout w) (pending w)
                     (nextTimer w) (rendererReady w)
                     (mkWidget wins (currentState (widget w))) (trace w)) ks
  end.

Definition steps (inputs : list Input) (r : Run) : Run :=
  fold_left (fun acc i => step i acc) inputs r.

(** The world right after [new Orchestrator()], at time [now], with the
    given widget windows. *)
Definition initial (now : Z) (ready : bool)
    (wins : list (nat * BrowserWindow)) : World :=
  {| stateMachine := new_RecordingStateMachine None;
     clock := now;
     isRecording := false;
     processingTimeout := None;
     feedbackTimeout := None;
     pending := [];
     nextTimer := 0%nat;
     rendererReady := ready;
     widget := mkWidget wins w_idle;
     trace := [] |}.

(** The widget pushes of a trace. *)
Definition pushes (tr : list Effect) : list WidgetState :=
  flat_map (fun e => match e with WidgetPush s => [s] | _ => [] end) tr.

(** The triggers submitted to the machine in a trace. *)
Definition submitted (tr : list Effect) : list StateTrigger :=
  flat_map (fun e => match e with SubmitTrigger t => [t] | _ => [] end) tr.

(** Scenarios: two displays, the second one's widget already destroyed. *)
Definition two_displays : list (nat * BrowserWindow) :=
  [(1%nat, mkWindow false []); (2%nat, mkWindow true [])].

(** A recording of one second is in ['processing'] ... *)
Definition processing_world : World :=
  world (steps [HotkeyPress; Resume 0; Tick 1000; HotkeyPress]
               (start (initial 5000 true two_displays))).

(** ... two transcription errors arrive, the second overwriting the
    handle of the first one's timer (timer 1), and then a completion
    moves the machine to ['inserting'] with timer 1 still armed. *)
Definition stale_error_world : World :=
  world (steps [TranscriptionError; TranscriptionError;
                TranscriptionComplete paste "hello world" true; Resume 0]
               (start processing_world)).

(** One transcription error, then a completion: entering ['inserting']
    clears the deferred-error timer (timer 1) through its handle. *)
Definition late_completion_world : World :=
  world (steps [TranscriptionError;
                TranscriptionComplete paste "hello world" true; Resume 0]
               (start processing_world)).

(** The processing watchdog (timer 0) has fired and armed its 3 s
    successor (timer 1). *)
Definition watchdog_world : World :=
  world (steps [TimerExpires 0%nat] (start processing_world)).

(** A world whose machine is in ['error'], as the orchestrator's tests
    set it up. *)
Definition error_world : World :=
  with_machine (mkMachine error None 200) (initial 5000 true two_displays).

End Orchestrator.

(* ================================================================== *)
(** ** The global hotkey service (hotkey-service.ts)                   *)
(* ================================================================== *)

Module HotkeyService.
Local Open Scope string_scope.

(** Accelerators are strings of 8-bit code units (Electron's
    accelerators are ASCII). *)

(** The white space [String.prototype.trim] strips, below U+0100. *)
Definition isWhiteSpace (c : ascii) : bool :=
  let n := nat_of_ascii c in
  existsb (Nat.eqb n) [9; 10; 11; 12; 13; 32; 160]%nat.

Definition lowerChar (c : ascii) : ascii :=
  let n := nat_of_ascii c in
  if ((65 <=? n) && (n <=? 90))%nat
     || ((192 <=? n) && (n <=? 222) && negb (n =? 215))%nat
  then ascii_of_nat (n + 32) else c.

Fixpoint trimStart (l : list ascii) : list ascii :=
  match l with
  | c :: rest => if isWhiteSpace c then trimStart rest else l
  | [] => []
  end.

Definition trim (s : string) : string :=
  string_of_list_ascii
    (rev (trimStart (rev (trimStart (list_ascii_of_string s))))).

Definition toLowerCase (s : string) : string :=
  string_of_list_ascii (map lowerChar (list_ascii_of_string s)).

(** [private static isFnAccelerator(accelerator)]. *)
Definition isFnAccelerator (accelerator : string) : bool :=
  String.eqb (toLowerCase (trim accelerator)) "fn".

Record HotkeyConfig : Type := mkConfig {
  accelerator : string;
  enabled : bool
}.

Definition DEFAULT_HOTKEY : HotkeyConfig :=
  {| accelerator := "Fn"; enabled := true |}.

(** What lives outside the service: the accelerators this application
    holds in Electron's [globalShortcut] registry, and the keyspy
    listeners ([GlobalKeyboardListener] instances) that are running.
    Each entry of either list is one live hotkey binding. *)
Record Bindings : Type := mkBindings {
  shortcuts : list string;
  spies : list nat;
  nextSpy : nat
}.

Definition live (os : Bindings) : nat :=
  (List.length (shortcuts os) + List.length (spies os))%nat.

Record GlobalHotkeyService : Type := mkService {
  _config : HotkeyConfig;
  _isRegistered : bool;
  _keyspy : option nat;            (* GlobalKeyboardListener | null *)
  _keyspyListener : bool;          (* the listener closure is non-null *)
  _fnPressed : bool;
  errorListeners : bool            (* an 'error' listener is attached *)
}.

(** [constructor(config?)]. *)
Definition new_GlobalHotkeyService (config : option HotkeyConfig)
  : GlobalHotkeyService :=
  {| _config := match config with Some c => c | None => DEFAULT_HOTKEY end;
     _isRegistered := false;
     _keyspy := None;
     _keyspyListener := false;
     _fnPressed := false;
     errorListeners := false |}.

Definition set_config (c : HotkeyConfig) (s : GlobalHotkeyService) :=
  mkService c (_isRegistered s) (_keyspy s) (_keyspyListener s)
            (_fnPressed s) (errorListeners s).

Definition set_isRegistered (b : bool) (s : GlobalHotkeyService) :=
  mkService (_config s) b (_keyspy s) (_keyspyListener s)
            (_fnPressed s) (errorListeners s).

(** How the platform answers during one call. *)
Record Platform : Type := mkPlatform {
  teardownThrows : bool;            (* the first teardown call throws *)
  spawnThrows : bool;               (* new GlobalKeyboardListener throws *)
  registerResult : option bool      (* globalShortcut.register: its
                                       result, or None when it throws *)
}.

Definition remove_string (a : string) (l : list string) : list string :=
  filter (fun b => negb (String.eqb a b)) l.

Definition remove_nat (k : nat) (l : list nat) : list nat :=
  filter (fun j => negb (Nat.eqb k j)) l.

Definition add_string (a : string) (l : list string) : list string :=
  if existsb (String.eqb a) l then l else l ++ [a].

(** [unregister()].  The teardown addresses the accelerator that
    [_config] holds when it runs. *)
Definition unregister (p : Platform) (s : GlobalHotkeyService) (os : Bindings)
  : GlobalHotkeyService * Bindings :=
  let acc := accelerator (_config s) in
  let '(s1, os1) :=
    if _isRegistered s && negb (String.eqb acc EmptyString) then
      if isFnAccelerator acc then
        match _keyspy s with
        | Some k =>
            if teardownThrows p then (s, os)
            else
              (mkService (_config s) (_isRegistered s) None false false
                         (errorListeners s),
               mkBindings (shortcuts os) (remove_nat k (spies os)) (nextSpy os))
        | None =>
            (mkService (_config s) (_isRegistered s) None false false
                       (errorListeners s), os)
        end
      else
        if teardownThrows p then (s, os)
        else (s, mkBindings (remove_string acc (shortcuts os)) (spies os)
                            (nextSpy os))
    else (s, os) in
  (set_isRegistered false s1, os1).

(** [registerFnHotkey()], up to the asynchronous [addListener]: [None]
    when the constructor throws. *)
Definition registerFnHotkey (p : Platform) (s : GlobalHotkeyService)
    (os : Bindings) : option GlobalHotkeyService * Bindings :=
  let os1 :=
    match _keyspy s with
    | Some k =>
        if teardownThrows p then os     (* kill() threw; the error is ignored *)
        else mkBindings (shortcuts os) (remove_nat k (spies os)) (nextSpy os)
    | None => os
    end in
  if spawnThrows p then (None, os1)
  else
    let k := nextSpy os1 in
    (Some (mkService (_config s) (_isRegistered s) (Some k) true false
                     (errorListeners s)),
     mkBindings (shortcuts os1) (spies os1 ++ [k]) (S k)).

(** What a call gives back: a value, or an exception that reaches the
    caller.  [this.emit('error', e)] throws [e] when no ['error']
    listener is attached. *)
Inductive Completion (A : Type) : Type :=
  | Returns (a : A)
  | Throws.
Arguments Returns {A} a.
Arguments Throws {A}.

(** The failure exits of [register]: [emit('error', ...)], then
    [return false]. *)
Definition fail (s : GlobalHotkeyService) : Completion bool :=
  if errorListeners s then Returns false else Throws.

(** [if (config) { this._config = { ...config }; }]. *)
Definition store_config (config : option HotkeyConfig)
    (s : GlobalHotkeyService) : GlobalHotkeyService :=
  match config with Some c => set_config c s | None => s end.

(** [register(config?)]. *)
Definition register (config : option HotkeyConfig) (p : Platform)
    (s : GlobalHotkeyService) (os : Bindings)
  : Completion bool * GlobalHotkeyService * Bindings :=
  let s0 := store_config config s in
  if negb (enabled (_config s0)) then (Returns false, s0, os)
  else
    let '(s1, os1) := unregister p s0 os in
    if isFnAccelerator (accelerator (_config s1)) then
      match registerFnHotkey p s1 os1 with
      | (Some s2, os2) => (Returns true, set_isRegistered true s2, os2)
      | (None, os2) => (fail s1, s1, os2)
      end
    else
      match registerResult p with
      | Some true =>
          (Returns true, set_isRegistered true s1,
           mkBindings (add_string (accelerator (_config s1)) (shortcuts os1))
                      (spies os1) (nextSpy os1))
      | Some false => (fail s1, s1, os1)
      | None => (fail s1, s1, os1)
      end.

(** [updateConfig(partial)]; persisting the configuration is left out. *)
Definition updateConfig (acc : option string) (en : option bool)
    (p : Platform) (s : GlobalHotkeyService) (os : Bindings)
  : Completion bool * GlobalHotkeyService * Bindings :=
  let c := {| accelerator := match acc with Some a => a
                             | None => accelerator (_config s) end;
              enabled := match en with Some e => e
                         | None => enabled (_config s) end |} in
  let s0 := set_config c s in
  if enabled c then register None p s0 os
  else let '(s1, os1) := unregister p s0 os in (Returns true, s1, os1).

(** The bindings are the service's own: what is live is exactly what
    the service believes it registered. *)
Definition consistent (s : GlobalHotkeyService) (os : Bindings) : Prop :=
  shortcuts os =
    (if _isRegistered s && negb (isFnAccelerator (accelerator (_config s)))
     then [accelerator (_config s)] else [])
  /\ spies os = (match _keyspy s with Some k => [k] | None => [] end)
  /\ (_keyspy s <> None ->
      _isRegistered s = true
      /\ isFnAccelerator (accelerator (_config s)) = true).

(** Scenarios.  A platform on which every call succeeds, and the
    service after [register({ accelerator: 'F13', enabled: true })] on
    it. *)
Definition calm : Platform :=
  {| teardownThrows := false; spawnThrows := false;
     registerResult := Some true |}.

Definition no_bindings : Bindings :=
  {| shortcuts := []; spies := []; nextSpy := 0 |}.

Definition f13_registered : GlobalHotkeyService * Bindings :=
  let '(_, s, os) :=
    register (Some (mkConfig "F13" true)) calm
             (new_GlobalHotkeyService None) no_bindings in
  (s, os).

End HotkeyService.

(* ================================================================== *)
(** ** Following the machine through its events                        *)
(* ================================================================== *)

Module MachineLog.
Import StateMachine.

(** What a [stateChange] listener that started in state [s] believes
    the state to be after the events [evs]; [None] when an event's
    [previousState] is not the state the listener was in. *)
Fixpoint follow (s : RecordingState) (evs : list Event)
  : option RecordingState :=
  match evs with
  | [] => Some s
  | stateChange state previousState :: rest =>
      if previousState =s? s then follow state rest else None
  end.

(** The guard of the accidental-tap branch of [transition]. *)
Definition tooShort (now : Z) (trigger : StateTrigger)
    (m : RecordingStateMachine) : bool :=
  (trigger =t? hotkey_release) && (_currentState m =s? recording)
  && (getRecordingDuration now m <? _minRecordingDuration m).

(** The time at which the session in progress was opened: the [now]
    of the last [transition('hotkey_press')] call that was accepted
    ([opened] before the calls [cs]). *)
Fixpoint sessionStart (cs : list Call) (m : RecordingStateMachine)
    (opened : option Z) : option Z :=
  match cs with
  | [] => opened
  | c :: rest =>
      sessionStart rest (call c m)
        (match c with
         | call_transition hotkey_press now =>
             if fst (fst (transition now hotkey_press m))
             then Some now else opened
         | _ => opened
         end)
  end.

(** While a session is open the stored start time is the time it was
    opened at. *)
Definition session_opened (m : RecordingStateMachine) (opened : option Z)
  : Prop :=
  match _currentState m with
  | idle => _recordingStartTime m = None
  | error => False
  | _ => _recordingStartTime m = opened /\ opened <> None
  end.

End MachineLog.

(* ================================================================== *)
(** ** More of the orchestrator (orchestrator.ts)                      *)
(* ================================================================== *)

Module OrchestratorOps.
Import StateMachine Widget Orchestrator.

(** The answer of the ['get-recording-state'] handler. *)
Record RecordingStateReply : Type := mkReply {
  reply_state : RecordingState;
  reply_isRecording : bool;
  reply_duration : Z
}.

Definition getRecordingState (w : World) : RecordingStateReply :=
  {| reply_state := sm_currentState w;
     reply_isRecording := isRecording w;
     reply_duration := getRecordingDuration (clock w) (stateMachine w) |}.

(** Timer handles are fresh: the armed timers have distinct ids, all
    below the next one. *)
Definition fresh_timers (n : nat) (l : list Timer) : Prop :=
  NoDup (map timerId l) /\ Forall (fun t => (timerId t < n)%nat) l.

(** Every armed processing watchdog is the one [processingTimeout]
    holds, and the machine is in ['processing']. *)
Definition watchdog_guarded (s : RecordingState) (h : option nat)
    (l : list Timer) : Prop :=
  Forall (fun t => callback t = ProcessingWatchdog ->
                   s = processing /\ h = Some (timerId t)) l.

Definition timers_wf (w : World) : Prop :=
  fresh_timers (nextTimer w) (pending w)
  /\ watchdog_guarded (sm_currentState w) (processingTimeout w) (pending w).

(** The armed processing watchdogs. *)
Definition watchdogs (w : World) : list Timer :=
  filter (fun t => match callback t with
                   | ProcessingWatchdog => true
                   | _ => false
                   end) (pending w).

(** The [isRecording] mirror covers the ['recording'] state. *)
Definition mirror_ok (w : World) : Prop :=
  sm_currentState w = recording -> isRecording w = true.

(** No processing watchdog is armed. *)
Definition quiet (l : list Timer) : Prop :=
  Forall (fun t => callback t <> ProcessingWatchdog) l.

(** A completion as it reaches the orchestrator: for ['paste'] the
    handler suspends on [insert], which settles [wait] ms later. *)
Definition completionInputs (m : InsertionMethod) (text : string)
    (success : bool) (wait : Z) : list Input :=
  match m with
  | paste => [TranscriptionComplete paste text success; Tick wait; Resume 0]
  | clipboard_only => [TranscriptionComplete clipboard_only text success]
  end.

End OrchestratorOps.

(* ================================================================== *)
(** ** The text insertion service (text-insertion-service.ts)          *)
(* ================================================================== *)

Module TextInsertion.
Import Orchestrator.
Local Open Scope string_scope.

(** What the service does to the system, in order.  The AppleScript
    calls are recorded when they are attempted; whether they succeed is
    an input of the operation that makes them. *)
Inductive Action : Type :=
  | QueryFrontApp                 (* osascript: name of the frontmost process *)
  | Activate (app : string)       (* osascript: tell application app to activate *)
  | WriteClipboard (text : string)   (* clipboard.writeText(text) *)
  | PasteKeystroke                (* osascript: keystroke "v" using command down *)
  | ShowNotification.             (* new Notification(...).show() *)

Record TextInsertionService : Type := mkTextService {
  _capturedAppName : option string;       (* string | null *)
  actions : list Action                   (* oldest first *)
}.

Definition new_TextInsertionService : TextInsertionService :=
  {| _capturedAppName := None; actions := [] |}.

Record InsertionResult : Type := mkResult {
  success : bool;
  method : InsertionMethod;
  error : option string
}.

Definition act (a : Action) (s : TextInsertionService) :=
  {| _capturedAppName := _capturedAppName s; actions := actions s ++ [a] |}.

(** [clearCapturedApp()]. *)
Definition clearCapturedApp (s : TextInsertionService) :=
  {| _capturedAppName := None; actions := actions s |}.

(** Texts and application names are Unicode strings, held here in
    UTF-8.  The characters [String.prototype.trim] strips -- ECMAScript's
    WhiteSpace and LineTerminator -- each as the code units of its
    encoding. *)
Definition whiteSpaceCodes : list (list nat) :=
  [[9]; [10]; [11]; [12]; [13]; [32];          (* TAB LF VT FF CR SP *)
   [194; 160];                                  (* U+00A0 *)
   [225; 154; 128];                             (* U+1680 *)
   [226; 128; 128]; [226; 128; 129]; [226; 128; 130]; [226; 128; 131];
   [226; 128; 132]; [226; 128; 133]; [226; 128; 134]; [226; 128; 135];
   [226; 128; 136]; [226; 128; 137]; [226; 128; 138];  (* U+2000 .. U+200A *)
   [226; 128; 168]; [226; 128; 169];            (* U+2028 U+2029 *)
   [226; 128; 175];                             (* U+202F *)
   [226; 129; 159];                             (* U+205F *)
   [227; 128; 128];                             (* U+3000 *)
   [239; 187; 191]]%nat.                        (* U+FEFF *)

Fixpoint startsWithCode (code : list nat) (l : list ascii) : bool :=
  match code, l with
  | [], _ => true
  | n :: code', c :: l' =>
      Nat.eqb n (nat_of_ascii c) && startsWithCode code' l'
  | _ :: _, [] => false
  end.

(** The length of the white-space character [l] starts with, 0 when it
    starts with none. *)
Definition whiteSpaceAt (codes : list (list nat)) (l : list ascii) : nat :=
  match find (fun code => startsWithCode code l) codes with
  | Some code => List.length code
  | None => 0%nat
  end.

(** Drops the white space [l] starts with; [skip] counts the code units
    of a character still to be dropped. *)
Fixpoint dropWhiteSpace (codes : list (list nat)) (skip : nat)
    (l : list ascii) : list ascii :=
  match l with
  | [] => []
  | c :: rest =>
      match skip with
      | S k => dropWhiteSpace codes k rest
      | O =>
          match whiteSpaceAt codes l with
          | O => l
          | S k => dropWhiteSpace codes k rest
          end
      end
  end.

(** [s.trim()]: white space is dropped at the start and, reading the
    text and the encodings backwards, at the end. *)
Definition jsTrim (s : string) : string :=
  string_of_list_ascii
    (rev (dropWhiteSpace (map (@rev nat) whiteSpaceCodes) 0
            (rev (dropWhiteSpace whiteSpaceCodes 0
                    (list_ascii_of_string s))))).

(** [!text || text.trim().length === 0]. *)
Definition isBlank (text : string) : bool :=
  String.eqb text EmptyString
  || Nat.eqb (String.length (jsTrim text)) 0.

(** [copyToClipboard(text)]. *)
Definition copyToClipboard (text : string) (s : TextInsertionService) :=
  act (WriteClipboard text) s.

(** [showClipboardNotification()]. *)
Definition showClipboardNotification (s : TextInsertionService) :=
  act ShowNotification s.

(** [copyToClipboardOnly(text)]. *)
Definition copyToClipboardOnly (text : string) (s : TextInsertionService)
  : InsertionResult * TextInsertionService :=
  if isBlank text then
    (mkResult false clipboard_only (Some "Empty text provided"),
     clearCapturedApp s)
  else
    (mkResult true clipboard_only None,
     clearCapturedApp (showClipboardNotification (copyToClipboard text s))).

(** [simulatePaste()]; [ok] tells whether the script ran without
    throwing. *)
Definition simulatePaste (ok : bool) (s : TextInsertionService)
  : bool * TextInsertionService :=
  (ok, act PasteKeystroke s).

(** [restoreFocus()]; a [null] or empty captured name is falsy. *)
Definition restoreFocus (ok : bool) (s : TextInsertionService)
  : bool * TextInsertionService :=
  match _capturedAppName s with
  | None => (false, s)
  | Some app =>
      if String.eqb app EmptyString then (false, s)
      else (ok, act (Activate app) s)
  end.

(** [insert(text)]. *)
Definition insert (text : string) (focusOk pasteOk : bool)
    (s : TextInsertionService) : InsertionResult * TextInsertionService :=
  if isBlank text then
    (mkResult false clipboard_only (Some "Empty text provided"),
     clearCapturedApp s)
  else
    let '(_, s1) := restoreFocus focusOk s in
    let s2 := copyToClipboard text s1 in
    let '(pasteSuccess, s3) := simulatePaste pasteOk s2 in
    let s4 := clearCapturedApp s3 in
    if pasteSuccess then (mkResult true paste None, s4)
    else
      (mkResult true clipboard_only
         (Some "Paste simulation failed, text copied to clipboard"),
       showClipboardNotification s4).

(** [captureActiveApp()]; [stdout] is the output of the script, [None]
    when running it throws. *)
Definition captureActiveApp (stdout : option string)
    (s : TextInsertionService) : option string * TextInsertionService :=
  let s1 := act QueryFrontApp s in
  match stdout with
  | None => (None, s1)
  | Some out =>
      let appName := jsTrim out in
      if negb (String.eqb appName EmptyString)
         && negb (String.eqb appName "Koe")
         && negb (String.eqb appName "Electron")
      then (Some appName,
            {| _capturedAppName := Some appName; actions := actions s1 |})
      else (None, s1)
  end.

(** [getCapturedApp()]. *)
Definition getCapturedApp (s : TextInsertionService) : option string :=
  _capturedAppName s.

(** The calls a client can make. *)
Inductive Op : Type :=
  | op_capture (stdout : option string)
  | op_insert (text : string) (focusOk pasteOk : bool)
  | op_copyOnly (text : string)
  | op_restoreFocus (ok : bool)
  | op_clear.

Definition apply_op (o : Op) (s : TextInsertionService)
  : TextInsertionService :=
  match o with
  | op_capture out => snd (captureActiveApp out s)
  | op_insert text f p => snd (insert text f p s)
  | op_copyOnly text => snd (copyToClipboardOnly text s)
  | op_restoreFocus ok => snd (restoreFocus ok s)
  | op_clear => clearCapturedApp s
  end.

Definition run_ops (ops : list Op) (s : TextInsertionService)
  : TextInsertionService :=
  fold_left (fun acc o => apply_op o acc) ops s.

(** The delivery step of the orchestrator's completion handler:
    [copyToClipboardOnly] or [insert], as the insertion method says. *)
Definition deliver (m : InsertionMethod) (text : string)
    (focusOk pasteOk : bool) (s : TextInsertionService)
  : InsertionResult * TextInsertionService :=
  match m with
  | clipboard_only => copyToClipboardOnly text s
  | paste => insert text focusOk pasteOk s
  end.

(** U+3000 IDEOGRAPHIC SPACE and U+00A0 NO-BREAK SPACE. *)
Definition ideographic_space : string :=
  String (ascii_of_nat 227)
    (String (ascii_of_nat 128) (String (ascii_of_nat 128) EmptyString)).
Definition no_break_space : string :=
  String (ascii_of_nat 194) (String (ascii_of_nat 160) EmptyString).

(** A captured name that is a real foreign application. *)
Definition presentable (o : option string) : Prop :=
  o <> Some EmptyString /\ o <> Some "Koe" /\ o <> Some "Electron".

End TextInsertion.

(* ================================================================== *)
(** ** The configuration service (config-service.ts)                   *)
(* ================================================================== *)

Module ConfigService.
Import Orchestrator HotkeyService.
Local Open Scope string_scope.

(** The ['hotkey'] entry as the JSON file holds it: either field may be
    missing. *)
Record StoredHotkey : Type := mkStoredHotkey {
  stored_accelerator : option string;
  stored_enabled : option bool
}.

(** The store: an entry that is absent reads as its default
    ([defaults: DEFAULT_CONFIG]). *)
Record Store : Type := mkStore {
  st_hotkey : option StoredHotkey;
  st_insertionMethod : option InsertionMethod;
  st_showFloatingIndicator : option bool;
  st_minRecordingDuration : option Z
}.

Record AppConfig : Type := mkAppConfig {
  hotkey : HotkeyConfig;
  insertionMethod : InsertionMethod;
  showFloatingIndicator : bool;
  minRecordingDuration : Z
}.

Definition DEFAULT_CONFIG : AppConfig :=
  {| hotkey := DEFAULT_HOTKEY;
     insertionMethod := paste;
     showFloatingIndicator := true;
     minRecordingDuration := 200 |}.

Definition store_of_hotkey (c : HotkeyConfig) : StoredHotkey :=
  {| stored_accelerator := Some (accelerator c);
     stored_enabled := Some (enabled c) |}.

(** [this.store.get('hotkey')]. *)
Definition get_hotkey (s : Store) : StoredHotkey :=
  match st_hotkey s with
  | Some h => h
  | None => store_of_hotkey (hotkey DEFAULT_CONFIG)
  end.

(** [this.store.get('insertionMethod')]. *)
Definition get_insertionMethod (s : Store) : InsertionMethod :=
  match st_insertionMethod s with
  | Some m => m
  | None => insertionMethod DEFAULT_CONFIG
  end.

(** [setHotkey(config)]. *)
Definition setHotkey (c : HotkeyConfig) (s : Store) : Store :=
  mkStore (Some (store_of_hotkey c)) (st_insertionMethod s)
          (st_showFloatingIndicator s) (st_minRecordingDuration s).

(** [setInsertionMethod(method)]. *)
Definition setInsertionMethod (m : InsertionMethod) (s : Store) : Store :=
  mkStore (st_hotkey s) (Some m) (st_showFloatingIndicator s)
          (st_minRecordingDuration s).

Definition setShowFloatingIndicator (b : bool) (s : Store) : Store :=
  mkStore (st_hotkey s) (st_insertionMethod s) (Some b)
          (st_minRecordingDuration s).

Definition setMinRecordingDuration (d : Z) (s : Store) : Store :=
  mkStore (st_hotkey s) (st_insertionMethod s) (st_showFloatingIndicator s)
          (Some d).

(** [migrateFromGammawave()]: the old file is copied when it exists and
    the new one does not.  A file is [None] when it does not exist. *)
Definition migrateFromGammawave (oldFile newFile : option Store)
  : option Store :=
  match oldFile, newFile with
  | Some o, None => Some o
  | _, _ => newFile
  end.

Definition empty_store : Store := mkStore None None None None.

(** [constructor()], on the two configuration files found on disk. *)
Definition new_ConfigService (oldFile newFile : option Store) : Store :=
  let s0 := match migrateFromGammawave oldFile newFile with
            | Some f => f
            | None => empty_store
            end in
  let s1 := match get_insertionMethod s0 with
            | clipboard_only => setInsertionMethod paste s0
            | paste => s0
            end in
  let acc := stored_accelerator (get_hotkey s1) in
  if match acc with
     | Some a => String.eqb a "Shift+Z" || String.eqb a "F13"
     | None => false
     end
  then setHotkey DEFAULT_HOTKEY s1 else s1.

(** [getHotkey()]. *)
Definition getHotkey (s : Store) : HotkeyConfig :=
  let stored := get_hotkey s in
  {| accelerator :=
       match stored_accelerator stored with
       | Some a => if String.eqb a EmptyString
                   then accelerator DEFAULT_HOTKEY else a
       | None => accelerator DEFAULT_HOTKEY
       end;
     enabled :=
       match stored_enabled stored with
       | Some e => e
       | None => enabled DEFAULT_HOTKEY
       end |}.

(** [getInsertionMethod()]. *)
Definition getInsertionMethod (s : Store) : InsertionMethod :=
  get_insertionMethod s.

Definition getShowFloatingIndicator (s : Store) : bool :=
  match st_showFloatingIndicator s with
  | Some b => b
  | None => showFloatingIndicator DEFAULT_CONFIG
  end.

Definition getMinRecordingDuration (s : Store) : Z :=
  match st_minRecordingDuration s with
  | Some d => d
  | None => minRecordingDuration DEFAULT_CONFIG
  end.

(** [load()]. *)
Definition load (s : Store) : AppConfig :=
  {| hotkey := getHotkey s;
     insertionMethod := getInsertionMethod s;
     showFloatingIndicator := getShowFloatingIndicator s;
     minRecordingDuration := getMinRecordingDuration s |}.

(** A [Partial<AppConfig>]. *)
Record PartialConfig : Type := mkPartial {
  p_hotkey : option HotkeyConfig;
  p_insertionMethod : option InsertionMethod;
  p_showFloatingIndicator : option bool;
  p_minRecordingDuration : option Z
}.

(** [save(config)]. *)
Definition save (c : PartialConfig) (s : Store) : Store :=
  let s1 := match p_hotkey c with Some h => setHotkey h s | None => s end in
  let s2 := match p_insertionMethod c with
            | Some m => setInsertionMethod m s1 | None => s1 end in
  let s3 := match p_showFloatingIndicator c with
            | Some b => setShowFloatingIndicator b s2 | None => s2 end in
  match p_minRecordingDuration c with
  | Some d => setMinRecordingDuration d s3
  | None => s3
  end.

(** [reset()]: [store.clear()] puts every entry back to its default. *)
Definition reset_store (s : Store) : Store := empty_store.

End ConfigService.

(* ================================================================== *)
(** ** Accelerator strings (hotkey-service.ts, static methods)         *)
(* ================================================================== *)

Module Accelerators.
Import HotkeyService.
Local Open Scope string_scope.

(** [String.prototype.toUpperCase] on 8-bit code units.  The three
    code units whose upper case leaves the 8-bit range (181, 223, 255)
    are left as they are; none of them occurs in a key name. *)
Definition upperChar (c : ascii) : ascii :=
  let n := nat_of_ascii c in
  if ((97 <=? n) && (n <=? 122))%nat
     || ((224 <=? n) && (n <=? 254) && negb (n =? 247))%nat
  then ascii_of_nat (n - 32) else c.

Definition toUpperCase (s : string) : string :=
  string_of_list_ascii (map upperChar (list_ascii_of_string s)).

(** [s.split('+')]: the pieces between the plus signs; one (empty)
    piece for the empty string. *)
Fixpoint split_plus (cur : list ascii) (l : list ascii) : list string :=
  match l with
  | [] => [string_of_list_ascii (rev cur)]
  | c :: rest =>
      if Ascii.eqb c "+"%char
      then string_of_list_ascii (rev cur) :: split_plus [] rest
      else split_plus (c :: cur) rest
  end.

Definition split (s : string) : list string :=
  split_plus [] (list_ascii_of_string s).

Definition includes (l : list string) (x : string) : bool :=
  existsb (String.eqb x) l.

Definition validModifiers : list string :=
  ["Command"; "Cmd"; "Control"; "Ctrl"; "CommandOrControl"; "CmdOrCtrl";
   "Alt"; "Option"; "AltGr"; "Shift"; "Super"; "Meta"].

Definition validKeys : list string :=
  (* 'ABCDEFGHIJKLMNOPQRSTUVWXYZ'.split('') *)
  ["A"; "B"; "C"; "D"; "E"; "F"; "G"; "H"; "I"; "J"; "K"; "L"; "M";
   "N"; "O"; "P"; "Q"; "R"; "S"; "T"; "U"; "V"; "W"; "X"; "Y"; "Z"]
  (* '0123456789'.split('') *)
  ++ ["0"; "1"; "2"; "3"; "4"; "5"; "6"; "7"; "8"; "9"]
  (* F1 ... F24 *)
  ++ ["F1"; "F2"; "F3"; "F4"; "F5"; "F6"; "F7"; "F8"; "F9"; "F10"; "F11";
      "F12"; "F13"; "F14"; "F15"; "F16"; "F17"; "F18"; "F19"; "F20";
      "F21"; "F22"; "F23"; "F24"]
  ++ ["Space"; "Tab"; "Capslock"; "Numlock"; "Scrolllock"; "Backspace";
      "Delete"; "Insert"; "Return"; "Enter"; "Up"; "Down"; "Left"; "Right";
      "Home"; "End"; "PageUp"; "PageDown"; "Escape"; "Esc"; "Plus"].

(** The tokens of an accelerator:
    [accelerator.split('+').map(p => p.trim())]. *)
Definition tokens (accelerator : string) : list string :=
  map trim (split accelerator).

(** [static validateAccelerator(accelerator)]. *)
Definition validateAccelerator (accelerator : string) : bool :=
  if isFnAccelerator accelerator then true
  else
    let parts := tokens accelerator in
    if Nat.eqb (List.length parts) 0 then false
    else
      let key := last parts EmptyString in
      let modifiers := removelast parts in
      if negb (includes validKeys key)
         && negb (includes validKeys (toUpperCase key))
      then false
      else forallb (includes validModifiers) modifiers.

Fixpoint startsWith (pat l : list ascii) : bool :=
  match pat, l with
  | [], _ => true
  | p :: pat', c :: l' => Ascii.eqb p c && startsWith pat' l'
  | _ :: _, [] => false
  end.

(** [s.replace(/pat/g, rep)] for a literal pattern: the occurrences are
    replaced from left to right, without overlap.  [skip] counts the
    code units of a match still to be dropped. *)
Fixpoint replace_from (pat rep : list ascii) (skip : nat) (l : list ascii)
  : list ascii :=
  match l with
  | [] => []
  | c :: rest =>
      match skip with
      | S k => replace_from pat rep k rest
      | O =>
          if negb (Nat.eqb (List.length pat) 0) && startsWith pat l
          then rep ++ replace_from pat rep (List.length pat - 1) rest
          else c :: replace_from pat rep 0 rest
      end
  end.

Definition replaceAll (pat rep s : string) : string :=
  string_of_list_ascii
    (replace_from (list_ascii_of_string pat) (list_ascii_of_string rep) 0
                  (list_ascii_of_string s)).

Definition systemShortcuts : list (string * string) :=
  [("CommandOrControl+Q", "Quit application");
   ("CommandOrControl+W", "Close window");
   ("CommandOrControl+H", "Hide application");
   ("CommandOrControl+M", "Minimize window");
   ("CommandOrControl+Tab", "Switch applications");
   ("CommandOrControl+Space", "Spotlight search");
   ("Control+Space", "Input source switch")].

Definition normalize (accelerator : string) : string :=
  replaceAll "CmdOrCtrl" "CommandOrControl"
    (replaceAll "Ctrl" "Control" (replaceAll "Cmd" "Command" accelerator)).

(** [static checkConflicts(accelerator)]. *)
Definition checkConflicts (accelerator : string) : option string :=
  if isFnAccelerator accelerator then None
  else
    match find (fun e => String.eqb (normalize accelerator) (fst e))
               systemShortcuts with
    | Some e => Some (snd e)
    | None => None
    end.

(** [HOTKEY_PRESETS]: name and accelerator. *)
Definition HOTKEY_PRESETS : list (string * string) :=
  [("Fn", "Fn"); ("F13", "F13"); ("Shift+Z", "Shift+Z");
   ("Ctrl+Space", "Control+Space");
   ("Cmd+Shift+Space", "CommandOrControl+Shift+Space");
   ("Ctrl+Option+R", "Control+Alt+R")].

End Accelerators.

(* ================================================================== *)
(** ** The Fn key listener (hotkey-service.ts, registerFnHotkey)       *)
(* ================================================================== *)

Module FnKey.
Import HotkeyService Accelerators.
Local Open Scope string_scope.

Inductive KeyState : Type := DOWN | UP.

(** [event.rawKey]: its [name] and [_nameRaw]. *)
Record RawKey : Type := mkRawKey {
  raw_name : option string;
  raw_nameRaw : option string
}.

(** A keyspy [IGlobalKeyEvent]. *)
Record KeyEvent : Type := mkKeyEvent {
  ev_name : option string;
  ev_rawKey : option RawKey;
  ev_vKey : Z;
  ev_state : KeyState
}.

(** [a || b] on strings that may be undefined: the first one that is
    neither undefined nor empty. *)
Definition or_else (a b : option string) : option string :=
  match a with
  | Some s => if String.eqb s EmptyString then b else a
  | None => b
  end.

Definition opt_bind {A B} (o : option A) (f : A -> option B) : option B :=
  match o with Some a => f a | None => None end.

(** The name the listener reads off an event. *)
Definition eventName (ev : KeyEvent) : string :=
  match or_else (ev_name ev)
          (or_else (opt_bind (ev_rawKey ev) raw_name)
             (or_else (opt_bind (ev_rawKey ev) raw_nameRaw)
                      (Some EmptyString))) with
  | Some s => s
  | None => EmptyString
  end.

(** [isFn] of the listener. *)
Definition isFnEvent (ev : KeyEvent) : bool :=
  let name := eventName ev in
  String.eqb (toUpperCase name) "FN"
  || String.eqb name "Function"
  || match opt_bind (ev_rawKey ev) raw_nameRaw with
     | Some r => String.eqb r "kVK_Function"
     | None => false
     end
  || (ev_vKey ev =? 63)%Z.      (* 0x3f *)

(** The signals the service gives its client: [emit('press')] with the
    press callback, [emit('release')] with the release callback. *)
Inductive Signal : Type := sig_press | sig_release.

Definition set_fnPressed (b : bool) (s : GlobalHotkeyService) :=
  mkService (_config s) (_isRegistered s) (_keyspy s) (_keyspyListener s)
            b (errorListeners s).

(** The listener closure: its boolean result, the service after it and
    the signals it gave. *)
Definition keyspyListener (ev : KeyEvent) (s : GlobalHotkeyService)
  : bool * GlobalHotkeyService * list Signal :=
  if negb (isFnEvent ev) then (false, s, [])
  else
    match ev_state ev with
    | DOWN =>
        if _fnPressed s then (true, s, [])
        else (true, set_fnPressed true s, [sig_press])
    | UP => (true, set_fnPressed false s, [sig_release])
    end.

(** The signals of a sequence of key events, oldest first. *)
Fixpoint listen (evs : list KeyEvent) (s : GlobalHotkeyService)
  : list Signal :=
  match evs with
  | [] => []
  | ev :: rest =>
      let '(_, s', out) := keyspyListener ev s in
      out ++ listen rest s'
  end.

(** No two presses without a release between them. *)
Fixpoint no_double_press (l : list Signal) : bool :=
  match l with
  | sig_press :: ((sig_press :: _) as rest) => false
  | _ :: rest => no_double_press rest
  | [] => true
  end.

(** A well-behaved keyboard's Fn key: held ([n] repeats of the
    key-down event after the first), then released. *)
Definition fnDown : KeyEvent :=
  mkKeyEvent (Some "FN") None 63 DOWN.
Definition fnUp : KeyEvent :=
  mkKeyEvent (Some "FN") None 63 UP.

End FnKey.

(* ================================================================== *)
(** ** One widget per display (recording-widget.ts)                    *)
(* ================================================================== *)

Module Displays.
Import Widget.

(** [display.workArea]. *)
Record Rectangle : Type := mkRect {
  rx : Z; ry : Z; rwidth : Z; rheight : Z
}.

(** [getBottomRightPosition(display)]. *)
Definition getBottomRightPosition (workArea : Rectangle) : Z * Z :=
  let size := 60 in
  let margin := 20 in
  (rx workArea + rwidth workArea - size - margin,
   ry workArea + rheight workArea - size - margin).

Definition has (id : nat) (rw : RecordingWidget) : bool :=
  existsb (fun e => Nat.eqb (fst e) id) (widgets rw).

(** [createWidgetForDisplay(display)], as far as the map of windows
    goes: a display that already has a widget gets no second one.  The
    push of the current state that a window created in a non-idle state
    receives once it has loaded is a later event and is not part of
    this step. *)
Definition createWidgetForDisplay (id : nat) (rw : RecordingWidget)
  : RecordingWidget :=
  if has id rw then rw
  else {| widgets := widgets rw ++ [(id, mkWindow false [])];
          currentState := currentState rw |}.

(** [destroyWidgetForDisplay(displayId)]. *)
Definition destroyWidgetForDisplay (id : nat) (rw : RecordingWidget)
  : RecordingWidget :=
  {| widgets := filter (fun e => negb (Nat.eqb (fst e) id)) (widgets rw);
     currentState := currentState rw |}.

(** [destroy()]. *)
Definition destroy (rw : RecordingWidget) : RecordingWidget :=
  {| widgets := []; currentState := currentState rw |}.

(** A window is destroyed from outside (its display went away, the
    application is quitting): [isDestroyed()] turns true. *)
Definition windowDestroyed (id : nat) (rw : RecordingWidget)
  : RecordingWidget :=
  {| widgets :=
       map (fun e => if Nat.eqb (fst e) id
                     then (fst e, mkWindow true (received (snd e)))
                     else e) (widgets rw);
     currentState := currentState rw |}.

Definition new_RecordingWidget : RecordingWidget :=
  {| widgets := []; currentState := w_idle |}.

(** [init()], on the ids of [screen.getAllDisplays()]. *)
Definition init (displays : list nat) (rw : RecordingWidget)
  : RecordingWidget :=
  fold_left (fun acc id => createWidgetForDisplay id acc) displays rw.

(** What happens to the widget object over time. *)
Inductive WidgetOp : Type :=
  | DisplayAdded (id : nat)
  | DisplayRemoved (id : nat)
  | WindowDestroyed (id : nat)
  | Update (s : WidgetState)
  | DestroyAll.

Definition widget_op (o : WidgetOp) (rw : RecordingWidget) : RecordingWidget :=
  match o with
  | DisplayAdded id => createWidgetForDisplay id rw
  | DisplayRemoved id => destroyWidgetForDisplay id rw
  | WindowDestroyed id => windowDestroyed id rw
  | Update s => updateAllWidgets s rw
  | DestroyAll => destroy rw
  end.

Definition widget_ops (ops : list WidgetOp) (rw : RecordingWidget)
  : RecordingWidget :=
  fold_left (fun acc o => widget_op o acc) ops rw.

Definition displayIds (rw : RecordingWidget) : list nat :=
  map fst (widgets rw).

End Displays.

(* ================================================================== *)
(** ** Properties of the state machine                                 *)
(* ================================================================== *)

Module MachineSpec.
Import StateMachine.

Lemma session_inv_new min : session_inv (new_RecordingStateMachine min).
Proof. reflexivity. Qed.

Lemma session_inv_reset m : session_inv (fst (reset m)).
Proof. unfold reset. destruct (negb _); reflexivity. Qed.

Lemma session_inv_transition now t m :
  session_inv m -> session_inv (snd (fst (transition now t m))).
Proof.
  destruct m as [s st mn]. unfold session_inv, transition.
  destruct s, t; simpl; intros H; try exact H; try reflexivity;
    try (exists now; reflexivity).
  destruct (getRecordingDuration _ _ <? mn); simpl; [reflexivity | exact H].
Qed.

Lemma session_inv_call c m : session_inv m -> session_inv (call c m).
Proof.
  destruct c as [t now |]; simpl; intros H.
  - now apply session_inv_transition.
  - apply session_inv_reset.
Qed.

Lemma session_inv_run cs : forall m, session_inv m -> session_inv (run cs m).
Proof.
  induction cs as [| c cs IH]; intros m H; simpl; [exact H |].
  apply IH. now apply session_inv_call.
Qed.

Lemma session_inv_reachable min cs :
  session_inv (run cs (new_RecordingStateMachine min)).
Proof. apply session_inv_run, session_inv_new. Qed.

(** C1. A (state, trigger) pair with no entry in the transition table
    is rejected: [transition] returns false, the machine is left as it
    was (same [currentState], same [recordingStartTime]) and no
    [stateChange] event is emitted. *)
Theorem transition_rejected_is_noop now trigger m :
  VALID_TRANSITIONS (_currentState m) trigger = None ->
  transition now trigger m = (false, m, []).
Proof.
  intros H. unfold transition. now rewrite H.
Qed.

Lemma transition_rejected_is_noop_witness :
  VALID_TRANSITIONS (_currentState (mkMachine processing (Some 1000) 200))
                    hotkey_press = None
  /\ transition 1500 hotkey_press (mkMachine processing (Some 1000) 200)
     = (false, mkMachine processing (Some 1000) 200, []).
Proof.
  split; [reflexivity |].
  apply (transition_rejected_is_noop 1500 hotkey_press
           (mkMachine processing (Some 1000) 200)).
  reflexivity.
Defined.

(** C2. [transition('hotkey_release')] while recording, with the
    session started at [t0] (a [Date.now()] value, hence non-zero):
    when [now - t0] is below [minRecordingDuration] the call returns
    false, yet the machine goes to ['idle'], the start time is cleared
    and [stateChange('idle', 'recording')] is emitted; when [now - t0]
    is at least [minRecordingDuration] the call returns true and the
    machine goes to ['processing'].  The default minimum is 200 ms. *)
Theorem release_guarded_by_min_duration now t0 m :
  _currentState m = recording ->
  _recordingStartTime m = Some t0 ->
  t0 <> 0 ->
  (now - t0 < _minRecordingDuration m ->
   transition now hotkey_release m
   = (false, mkMachine idle None (_minRecordingDuration m),
      [stateChange idle recording]))
  /\ (_minRecordingDuration m <= now - t0 ->
      fst (fst (transition now hotkey_release m)) = true
      /\ _currentState (snd (fst (transition now hotkey_release m)))
         = processing
      /\ snd (transition now hotkey_release m)
         = [stateChange processing recording])
  /\ _minRecordingDuration (new_RecordingStateMachine None) = 200.
Proof.
  destruct m as [s st mn]; simpl. intros -> -> Ht0.
  assert (Hd : getRecordingDuration now (mkMachine recording (Some t0) mn)
               = now - t0).
  { unfold getRecordingDuration; simpl.
    destruct (Z.eqb_spec t0 0); [contradiction | reflexivity]. }
  unfold transition; simpl. rewrite Hd.
  split; [| split; [| reflexivity]]; intros Hlt.
  - apply Z.ltb_lt in Hlt. now rewrite Hlt.
  - apply Z.ltb_ge in Hlt. now rewrite Hlt.
Qed.

(** The spec's scenario: press at 1000, release 50 ms and 250 ms later,
    on the default machine. *)
Lemma release_guarded_by_min_duration_witness :
  let m := snd (fst (transition 1000 hotkey_press
                                (new_RecordingStateMachine None))) in
  transition 1050 hotkey_release m
  = (false, mkMachine idle None 200, [stateChange idle recording])
  /\ fst (fst (transition 1250 hotkey_release m)) = true
  /\ _currentState (snd (fst (transition 1250 hotkey_release m))) = processing.
Proof.
  cbv zeta.
  pose proof (release_guarded_by_min_duration 1050 1000
    (snd (fst (transition 1000 hotkey_press
                          (new_RecordingStateMachine None))))
    eq_refl eq_refl ltac:(discriminate)) as [Hshort _].
  pose proof (release_guarded_by_min_duration 1250 1000
    (snd (fst (transition 1000 hotkey_press
                          (new_RecordingStateMachine None))))
    eq_refl eq_refl ltac:(discriminate)) as [_ [Hlong _]].
  split.
  - apply Hshort. reflexivity.
  - destruct Hlong as [H1 [H2 _]]; [discriminate |]. split; assumption.
Defined.

(** C6. [reset()] always leaves the machine in ['idle'] with no start
    time; it emits [stateChange('idle', previousState)] exactly when the
    previous state was not ['idle'], and nothing else; two [reset()]
    calls in a row from ['idle'] emit nothing. *)
Theorem reset_forces_idle m :
  _currentState (fst (reset m)) = idle
  /\ _recordingStartTime (fst (reset m)) = None
  /\ (_currentState m <> idle ->
      snd (reset m) = [stateChange idle (_currentState m)])
  /\ (_currentState m = idle -> snd (reset m) = [])
  /\ (_currentState m = idle -> emitted [call_reset; call_reset] m = []).
Proof.
  destruct m as [s st mn]. unfold emitted, call, reset; simpl.
  destruct s; simpl; repeat split; intros H;
    try reflexivity; try discriminate; try (now contradiction H).
Qed.

Lemma reset_forces_idle_witness :
  snd (reset (mkMachine processing (Some 1000) 200))
  = [stateChange idle processing]
  /\ emitted [call_reset; call_reset] (new_RecordingStateMachine None) = [].
Proof.
  destruct (reset_forces_idle (mkMachine processing (Some 1000) 200))
    as [_ [_ [Hne _]]].
  destruct (reset_forces_idle (new_RecordingStateMachine None))
    as [_ [_ [_ [_ Htwice]]]].
  split.
  - apply Hne. discriminate.
  - apply Htwice. reflexivity.
Defined.

(** C7, as stated, fails: after a press at 1000 and a release at 1300
    the machine is in ['processing'], not in ['recording'], and
    [getRecordingDuration()] at 1500 is 500. *)
Lemma duration_outside_recording_counterexample :
  ~ (forall min cs now,
       _currentState (run cs (new_RecordingStateMachine min)) <> recording ->
       getRecordingDuration now (run cs (new_RecordingStateMachine min)) = 0).
Proof.
  intros H.
  specialize (H None [call_transition hotkey_press 1000;
                      call_transition hotkey_release 1300] 1500).
  vm_compute in H. specialize (H ltac:(discriminate)). discriminate H.
Qed.

Lemma session_opened_run cs :
  forall m opened,
    MachineLog.session_opened m opened ->
    MachineLog.session_opened (run cs m) (MachineLog.sessionStart cs m opened).
Proof.
  induction cs as [| c cs IH]; intros m opened H; [exact H |].
  change (run (c :: cs) m) with (run cs (call c m)).
  simpl MachineLog.sessionStart. apply IH. clear IH.
  destruct m as [s st mn]. unfold MachineLog.session_opened in *.
  destruct c as [t now |]; simpl in *.
  - unfold transition.
    destruct s, t; simpl in *; try exact H; try reflexivity;
      try contradiction;
      try (split; [reflexivity | discriminate]).
    destruct (getRecordingDuration _ _ <? mn); simpl;
      [reflexivity | exact H].
  - destruct s; reflexivity.
Qed.

(** C7, amended.  In every configuration reached from a fresh machine,
    [getRecordingDuration()] is 0 when the machine is in ['idle'] (or
    ['error']).  In ['recording'], ['processing'] and ['inserting'] the
    start time is still set: it is the time of the accepted
    [hotkey_press] that opened the session, and the duration is the
    time elapsed since that press -- except that a press made at time
    0 leaves a start time that reads as absent, so the duration is 0. *)
Theorem duration_zero_once_idle min cs now :
  let m := run cs (new_RecordingStateMachine min) in
  (_currentState m = idle \/ _currentState m = error ->
   getRecordingDuration now m = 0)
  /\ (_currentState m = recording \/ _currentState m = processing
      \/ _currentState m = inserting ->
      exists t,
        MachineLog.sessionStart cs (new_RecordingStateMachine min) None
        = Some t
        /\ _recordingStartTime m = Some t
        /\ getRecordingDuration now m = if t =? 0 then 0 else now - t).
Proof.
  intros m.
  pose proof (session_opened_run cs (new_RecordingStateMachine min) None
                eq_refl) as Hinv.
  fold m in Hinv. unfold MachineLog.session_opened in Hinv.
  unfold getRecordingDuration. split.
  - intros [H | H]; rewrite H in Hinv; [now rewrite Hinv | contradiction].
  - intros [H | [H | H]]; rewrite H in Hinv; destruct Hinv as [Hs Ho];
      destruct (MachineLog.sessionStart cs (new_RecordingStateMachine min)
                                        None) as [t |];
      try (now contradiction Ho);
      exists t; rewrite Hs; repeat split.
Qed.

(** A press at 1000 and a release at 1300: in ['processing'] at 1500
    the duration is 500, counted from the press; after the error
    trigger, back in ['idle'], it is 0. *)
Lemma duration_zero_once_idle_witness :
  getRecordingDuration 9000
    (run [call_transition hotkey_press 1000;
          call_transition hotkey_release 1300;
          call_transition trigger_error 1400]
         (new_RecordingStateMachine None)) = 0
  /\ getRecordingDuration 1500
       (run [call_transition hotkey_press 1000;
             call_transition hotkey_release 1300]
            (new_RecordingStateMachine None)) = 1500 - 1000.
Proof.
  destruct (duration_zero_once_idle None
              [call_transition hotkey_press 1000;
               call_transition hotkey_release 1300;
               call_transition trigger_error 1400] 9000) as [Hidle _].
  destruct (duration_zero_once_idle None
              [call_transition hotkey_press 1000;
               call_transition hotkey_release 1300] 1500) as [_ Hopen].
  split.
  - apply Hidle. left. reflexivity.
  - destruct Hopen as [t [Ht [_ Hd]]]; [right; left; reflexivity |].
    injection Ht as <-. exact Hd.
Defined.

End MachineSpec.

(* ================================================================== *)
(** ** Properties of the orchestrator                                  *)
(* ================================================================== *)

Module OrchestratorSpec.
Import StateMachine Widget Orchestrator.

Lemma pushes_app a b : pushes (a ++ b) = pushes a ++ pushes b.
Proof. unfold pushes. apply flat_map_app. Qed.

Lemma submitted_app a b : submitted (a ++ b) = submitted a ++ submitted b.
Proof. unfold submitted. apply flat_map_app. Qed.

(** Case analysis on a world down to the fields the handlers branch on. *)
Ltac open_world w :=
  let s := fresh "s" in
  let st := fresh "st" in
  let mn := fresh "mn" in
  let pt := fresh "pt" in
  let ft := fresh "ft" in
  let ready := fresh "ready" in
  destruct w as [[s st mn] ? ? pt ft ? ? ready ? ?];
  unfold sm_currentState in *; simpl in *.

(** The guard of the two 3 s closures and of the completion handler:
    a closure whose guard fails changes nothing. *)
Lemma guarded_closure_noop cb w :
  cb = WatchdogGrace \/ cb = DeferredError ->
  sm_currentState w <> processing ->
  runCallback cb w = w.
Proof.
  intros [-> | ->] H; open_world w; destruct s; try reflexivity;
    now contradiction H.
Qed.

(** What either 3 s closure does when its guard holds. *)
Lemma guarded_closure_fires cb w :
  cb = WatchdogGrace \/ cb = DeferredError ->
  sm_currentState w = processing ->
  trace (runCallback cb w)
  = trace w ++ [WidgetPush w_idle; SubmitTrigger trigger_error]
      ++ (if rendererReady w then [RendererSend reset_recording_state] else [])
  /\ sm_currentState (runCallback cb w) = idle
  /\ widget (runCallback cb w) = updateAllWidgets w_idle (widget w).
Proof.
  intros [-> | ->] H; open_world w; subst s;
    destruct pt, ft, ready; simpl; rewrite <- ?app_assoc; repeat split.
Qed.

(** The ['idle'] arm of the listener pushes unless the previous state
    is ['inserting'] or ['processing']. *)
Lemma idle_arm_suppressed prev w :
  prev = processing \/ prev = inserting ->
  pushes (trace (onStateChange (stateChange idle prev) w)) = pushes (trace w)
  /\ widget (onStateChange (stateChange idle prev) w) = widget w.
Proof.
  intros [-> | ->]; open_world w; destruct pt, ft, ready; simpl;
    rewrite ?pushes_app; simpl; rewrite ?app_nil_r; split; reflexivity.
Qed.

Lemma idle_arm_pushes prev w :
  prev <> processing -> prev <> inserting ->
  pushes (trace (onStateChange (stateChange idle prev) w))
  = pushes (trace w) ++ [w_idle]
  /\ widget (onStateChange (stateChange idle prev) w)
     = updateAllWidgets w_idle (widget w).
Proof.
  intros H1 H2. open_world w.
  destruct prev; try (now contradiction H1); try (now contradiction H2);
    destruct pt, ft, ready; simpl;
    rewrite ?pushes_app; simpl; rewrite ?pushes_app; simpl;
    rewrite ?app_nil_r; split; reflexivity.
Qed.

(** C3. A transcription completion is acted on only in ['processing'].
    There the handler submits [transcription_complete], which moves the
    machine to ['inserting'], then calls the delivery the insertion
    method selects, then pushes ['success'] or ['error'] to the widgets
    and arms the 2 s feedback timer.  In any other state the handler
    changes nothing: no trigger is submitted, nothing is inserted, no
    widget is pushed, no timer is armed. *)
Theorem completion_only_in_processing method text success w :
  (sm_currentState w = processing ->
   let w' := onTranscriptionComplete method text success w in
   trace w'
   = trace w ++ [SubmitTrigger transcription_complete;
                 match method with
                 | clipboard_only => CopyToClipboardOnly text
                 | paste => Insert text
                 end;
                 WidgetPush (if success then w_success else w_error)]
   /\ sm_currentState w' = inserting
   /\ widget w'
      = updateAllWidgets (if success then w_success else w_error) (widget w)
   /\ feedbackTimeout w' = Some (nextTimer w)
   /\ In (mkTimer (nextTimer w) FeedbackDone 2000) (pending w')
   /\ nextTimer w' = S (nextTimer w))
  /\ (sm_currentState w <> processing ->
      onTranscriptionComplete method text success w = w).
Proof.
  split; intros H; open_world w.
  - subst s. destruct pt, ft, method; simpl; rewrite <- ?app_assoc; simpl;
      repeat split; apply in_or_app; right; left; reflexivity.
  - destruct s; try reflexivity. now contradiction H.
Qed.

Lemma completion_only_in_processing_witness :
  trace (onTranscriptionComplete paste "hello world" true processing_world)
  = trace processing_world
    ++ [SubmitTrigger transcription_complete; Insert "hello world";
        WidgetPush w_success]
  /\ onTranscriptionComplete paste "hello world" true
       (initial 5000 true two_displays)
     = initial 5000 true two_displays.
Proof.
  destruct (completion_only_in_processing paste "hello world" true
              processing_world) as [Hin _].
  destruct (completion_only_in_processing paste "hello world" true
              (initial 5000 true two_displays)) as [_ Hout].
  split.
  - specialize (Hin eq_refl). cbv zeta in Hin. destruct Hin as [Ht _].
    exact Ht.
  - apply Hout. discriminate.
Defined.

Lemma fire_guard_fails id t w :
  find (fun t => Nat.eqb (timerId t) id) (pending w) = Some t ->
  callback t = WatchdogGrace \/ callback t = DeferredError ->
  sm_currentState w <> processing ->
  fireTimer id w = clearTimeout id w.
Proof.
  intros Hf Hcb Hs. unfold fireTimer. rewrite Hf.
  apply guarded_closure_noop; [exact Hcb |].
  destruct w as [[s ? ?] ? ? ? ? ? ? ? ? ?]. exact Hs.
Qed.

(** C4. The transcription-error handler arms a 3 s timer whose closure
    looks at the state when it fires.  If the machine is no longer in
    ['processing'] the closure changes nothing: it neither pushes
    ['idle'] nor submits ['error'] (the expiry only takes the timer out
    of the armed set).  If the machine is still in ['processing'] it
    pushes ['idle'], then submits ['error'], and the machine goes to
    ['idle']. *)
Theorem deferred_error_rechecks_state w :
  In (mkTimer (nextTimer w) DeferredError 3000)
     (pending (onTranscriptionError w))
  /\ (sm_currentState w <> processing -> runCallback DeferredError w = w)
  /\ (forall id t,
        find (fun t => Nat.eqb (timerId t) id) (pending w) = Some t ->
        callback t = DeferredError ->
        sm_currentState w <> processing ->
        fireTimer id w = clearTimeout id w
        /\ trace (fireTimer id w) = trace w
        /\ stateMachine (fireTimer id w) = stateMachine w
        /\ widget (fireTimer id w) = widget w)
  /\ (sm_currentState w = processing ->
      trace (runCallback DeferredError w)
      = trace w ++ [WidgetPush w_idle; SubmitTrigger trigger_error]
          ++ (if rendererReady w
              then [RendererSend reset_recording_state] else [])
      /\ sm_currentState (runCallback DeferredError w) = idle).
Proof.
  split; [| split; [| split]].
  - destruct w; simpl. apply in_or_app; right; left; reflexivity.
  - apply guarded_closure_noop. now right.
  - intros id t Hf Hcb Hs.
    rewrite (fire_guard_fails id t w Hf (or_intror Hcb) Hs).
    destruct w; repeat split.
  - intros H.
    destruct (guarded_closure_fires DeferredError w (or_intror eq_refl) H)
      as [Ht [Hs _]].
    split; assumption.
Qed.

(** The stale timer of [stale_error_world] expires while the machine is
    in ['inserting']. *)
Lemma deferred_error_rechecks_state_witness :
  sm_currentState stale_error_world = inserting
  /\ trace (fireTimer 1 stale_error_world) = trace stale_error_world
  /\ stateMachine (fireTimer 1 stale_error_world)
     = stateMachine stale_error_world.
Proof.
  split; [reflexivity |].
  destruct (deferred_error_rechecks_state stale_error_world)
    as [_ [_ [Hfire _]]].
  destruct (Hfire 1%nat (mkTimer 1 DeferredError 3000))
    as [_ [Ht [Hm _]]];
    [reflexivity | reflexivity | discriminate |].
  split; assumption.
Defined.

(** In the spec's own scenario the timer does not even fire: the late
    completion disarmed it. *)
Example late_completion_disarms_deferred_error :
  find (fun t => Nat.eqb (timerId t) 1) (pending late_completion_world) = None
  /\ fireTimer 1 late_completion_world = late_completion_world.
Proof. split; reflexivity. Qed.

(** C5. The processing watchdog, firing in ['processing'], arms a 3 s
    timer.  When that timer fires in ['processing'], the widgets are
    pushed ['idle'] exactly once: by the closure itself, which then
    submits ['error'].  The [stateChange] into ['idle'] that
    follows, coming from ['processing'], pushes nothing, and neither
    does one coming from ['inserting']; one coming from ['recording']
    or ['error'] pushes ['idle']. *)
Theorem watchdog_idle_pushed_once :
  (forall w,
     sm_currentState w = processing ->
     In (mkTimer (nextTimer w) WatchdogGrace 3000)
        (pending (runCallback ProcessingWatchdog w)))
  /\ (forall w,
     sm_currentState w = processing ->
     pushes (trace (runCallback WatchdogGrace w)) = pushes (trace w) ++ [w_idle]
     /\ submitted (trace (runCallback WatchdogGrace w))
        = submitted (trace w) ++ [trigger_error]
     /\ widget (runCallback WatchdogGrace w)
        = updateAllWidgets w_idle (widget w)
     /\ sm_currentState (runCallback WatchdogGrace w) = idle)
  /\ (forall prev w,
        prev = processing \/ prev = inserting ->
        pushes (trace (onStateChange (stateChange idle prev) w))
        = pushes (trace w)
        /\ widget (onStateChange (stateChange idle prev) w) = widget w)
  /\ (forall prev w,
        prev = recording \/ prev = error ->
        pushes (trace (onStateChange (stateChange idle prev) w))
        = pushes (trace w) ++ [w_idle]
        /\ widget (onStateChange (stateChange idle prev) w)
           = updateAllWidgets w_idle (widget w)).
Proof.
  split; [| split; [| split]].
  - intros w H. open_world w. subst s. simpl.
    apply in_or_app; right; left; reflexivity.
  - intros w H.
    destruct (guarded_closure_fires WatchdogGrace w (or_introl eq_refl) H)
      as [Ht [Hs Hw]].
    rewrite Ht, pushes_app, submitted_app.
    repeat split; try assumption;
      destruct (rendererReady w); simpl; reflexivity.
  - apply idle_arm_suppressed.
  - intros prev w [-> | ->]; apply idle_arm_pushes; discriminate.
Qed.

(** The watchdog's second timer (timer 1 of [watchdog_world]) fires:
    the one live widget receives a single ['idle']. *)
Lemma watchdog_idle_pushed_once_witness :
  sm_currentState watchdog_world = processing
  /\ pushes (trace (runCallback WatchdogGrace watchdog_world))
     = pushes (trace watchdog_world) ++ [w_idle]
  /\ widgets (widget (fireTimer 1 watchdog_world))
     = [(1%nat, mkWindow false [w_recording; w_processing; w_error; w_idle])].
Proof.
  split; [reflexivity |].
  destruct watchdog_idle_pushed_once as [_ [Hfire _]].
  destruct (Hfire watchdog_world) as [Hp _]; [reflexivity |].
  split; [exact Hp | reflexivity].
Defined.

(** C8, as stated, fails: in ['error'] the widget toggle does nothing,
    while the hardware hotkey resets, captures and submits. *)
Lemma widget_toggle_in_error_counterexample :
  sm_currentState error_world = error
  /\ onWidgetToggle error_world = error_world
  /\ trace (onWidgetToggle error_world) = []
  /\ trace (onHotkeyPress error_world)
     = [ResetMachine; RendererSend reset_recording_state; WidgetPush w_idle;
        CaptureActiveApp; SubmitTrigger hotkey_press;
        WidgetPush w_recording; RendererSend start_recording]
  /\ ~ (forall w, onWidgetToggle w = onHotkeyPress w).
Proof.
  repeat split.
  intros H. specialize (H error_world).
  apply (f_equal trace) in H. discriminate H.
Qed.

(** C8, amended.  In every state but ['error'] the widget toggle does
    what the hardware hotkey press does; in ['error'] the widget toggle
    is ignored (no reset, no capture, no trigger), whereas the hardware
    hotkey first resets the machine, then captures the foreground
    application, then submits [hotkey_press]. *)
Theorem widget_toggle_matches_hotkey_outside_error w :
  (sm_currentState w <> error -> onWidgetToggle w = onHotkeyPress w)
  /\ (sm_currentState w = error -> onWidgetToggle w = w)
  /\ (sm_currentState w = error ->
      exists feedback outcome,
        trace (onHotkeyPress w)
        = trace w ++ [ResetMachine] ++ feedback
            ++ [CaptureActiveApp; SubmitTrigger hotkey_press] ++ outcome
        /\ submitted feedback = []
        /\ ~ In CaptureActiveApp feedback).
Proof.
  split; [| split]; intros H; open_world w.
  - destruct s; try reflexivity. now contradiction H.
  - subst s. reflexivity.
  - subst s. destruct ready.
    + exists [RendererSend reset_recording_state; WidgetPush w_idle].
      eexists. destruct pt, ft; simpl; rewrite <- ?app_assoc; simpl;
        (split; [reflexivity | split; [reflexivity |]]);
        intros [F | [F | []]]; discriminate F.
    + exists [WidgetPush w_idle].
      eexists. destruct pt, ft; simpl; rewrite <- ?app_assoc; simpl;
        (split; [reflexivity | split; [reflexivity |]]);
        intros [F | []]; discriminate F.
Qed.

Lemma widget_toggle_matches_hotkey_outside_error_witness :
  onWidgetToggle processing_world = onHotkeyPress processing_world
  /\ onWidgetToggle (initial 5000 true two_displays)
     = onHotkeyPress (initial 5000 true two_displays)
  /\ onWidgetToggle error_world = error_world.
Proof.
  destruct (widget_toggle_matches_hotkey_outside_error processing_world)
    as [Hbusy _].
  destruct (widget_toggle_matches_hotkey_outside_error
              (initial 5000 true two_displays)) as [Hidle _].
  destruct (widget_toggle_matches_hotkey_outside_error error_world)
    as [_ [Herr _]].
  split; [| split].
  - apply Hbusy. vm_compute. discriminate.
  - apply Hidle. vm_compute. discriminate.
  - apply Herr. reflexivity.
Defined.

End OrchestratorSpec.

(* ================================================================== *)
(** ** The ['error'] state                                             *)
(* ================================================================== *)

Module ErrorStateSpec.
Import StateMachine Widget Orchestrator.

Lemma transition_not_error now t m :
  _currentState m <> error ->
  _currentState (snd (fst (transition now t m))) <> error.
Proof.
  destruct m as [s st mn]. unfold transition.
  destruct s, t; simpl; intros H; try exact H; try discriminate.
  destruct (getRecordingDuration _ _ <? mn); discriminate.
Qed.

(** The listener and the timers only reach the machine through
    [transition] and [reset]. *)
Lemma sm_reset_idle w : sm_currentState (sm_reset w) = idle.
Proof.
  destruct w as [[s st mn] ? ? pt ft ? ? ready ? ?].
  destruct s, pt, ft, ready; reflexivity.
Qed.

Lemma sm_transition_not_error t w :
  sm_currentState w <> error ->
  sm_currentState (snd (sm_transition t w)) <> error.
Proof.
  destruct w as [[s st mn] clk ? pt ft ? ? ready ? ?].
  unfold sm_currentState, sm_transition, transition; simpl.
  destruct s, t; simpl; intros H; try exact H; try (now contradiction H);
    try (destruct (getRecordingDuration _ _ <? mn); simpl);
    destruct pt, ft, ready; simpl; discriminate.
Qed.

Lemma clearProcessingTimeout_state w :
  sm_currentState (clearProcessingTimeout w) = sm_currentState w.
Proof.
  destruct w as [m ? ? pt ft ? ? ? ? ?]. destruct pt, ft; reflexivity.
Qed.

Lemma step_not_error i r :
  sm_currentState (world r) <> error ->
  sm_currentState (world (step i r)) <> error.
Proof.
  destruct r as [w ks]. simpl. intros H.
  assert (Hgrace : forall t w1, sm_currentState w1 <> error ->
            sm_currentState (snd (sm_transition t (push w_idle w1))) <> error)
    by (intros t w1 H1; apply sm_transition_not_error; exact H1).
  destruct i; simpl.
  - unfold pressBegin. remember (sm_currentState w) as s eqn:E.
    destruct s; simpl; try (rewrite <- E; discriminate);
      try (now contradiction H).
    + change (sm_currentState w <> error). rewrite <- E. discriminate.
    + apply (sm_transition_not_error hotkey_release w).
      rewrite <- E. discriminate.
  - unfold toggleBegin. remember (sm_currentState w) as s eqn:E.
    destruct s; simpl; try (rewrite <- E; discriminate);
      try (now contradiction H).
    + change (sm_currentState w <> error). rewrite <- E. discriminate.
    + apply (sm_transition_not_error hotkey_release w).
      rewrite <- E. discriminate.
  - unfold onHotkeyRelease.
    destruct (_ =s? recording); [| exact H].
    apply (sm_transition_not_error hotkey_release w). exact H.
  - unfold completionBegin.
    destruct (_ =s? processing); [| exact H].
    pose proof (sm_transition_not_error transcription_complete w H) as H1.
    destruct m; exact H1.
  - exact H.
  - unfold fireTimer. destruct (find _ (pending w)) as [t |]; [| exact H].
    assert (H1 : sm_currentState (clearTimeout id w) <> error) by exact H.
    generalize dependent (clearTimeout id w). intros w1 H1.
    destruct (callback t); simpl;
      match goal with
      | |- context [if ?b then _ else _] => destruct b
      end; try exact H1; try (apply Hgrace; exact H1).
  - destruct (nth_error ks n) as [k |]; [| exact H]. simpl.
    destruct k; simpl.
    + apply (sm_transition_not_error hotkey_press w). exact H.
    + exact H.
  - rewrite sm_reset_idle. discriminate.
  - unfold stop. rewrite clearProcessingTimeout_state. exact H.
  - exact H.
  - exact H.
  - exact H.
Qed.

Lemma steps_not_error inputs :
  forall r, sm_currentState (world r) <> error ->
            sm_currentState (world (steps inputs r)) <> error.
Proof.
  induction inputs as [| i inputs IH]; intros r H; simpl; [exact H |].
  apply IH. now apply step_not_error.
Qed.

(** C10. No entry of the transition table leads to ['error'], [reset()]
    always yields ['idle'], and so after any finite sequence of
    [transition()] and [reset()] calls on a fresh machine the state is
    not ['error'].  The same holds of the machine the orchestrator
    drives, whatever reaches the orchestrator and however its
    suspended handlers interleave: the ['error'] branch of its hotkey
    handler is never taken, and the hardware hotkey and the widget
    toggle then act alike. *)
Theorem error_state_unreachable :
  (forall s t, VALID_TRANSITIONS s t <> Some error)
  /\ (forall m, _currentState (fst (reset m)) = idle)
  /\ (forall min cs,
        _currentState (run cs (new_RecordingStateMachine min)) <> error)
  /\ (forall now ready wins inputs,
        let w := world (steps inputs (start (initial now ready wins))) in
        sm_currentState w <> error
        /\ onHotkeyPress w = onWidgetToggle w
        /\ pressBegin w = toggleBegin w).
Proof.
  split; [| split; [| split]].
  - intros s t. destruct s, t; discriminate.
  - intros m. unfold reset. destruct (negb _); reflexivity.
  - intros min cs H.
    pose proof (MachineSpec.session_inv_reachable min cs) as Hinv.
    unfold session_inv in Hinv. now rewrite H in Hinv.
  - intros now ready wins inputs w.
    assert (H : sm_currentState w <> error)
      by (apply steps_not_error; discriminate).
    split; [exact H |].
    unfold onHotkeyPress, onWidgetToggle, pressBegin, toggleBegin.
    destruct (sm_currentState w); try (split; reflexivity).
    now contradiction H.
Qed.

End ErrorStateSpec.

(* ================================================================== *)
(** ** Properties of the hotkey service                                *)
(* ================================================================== *)

Module HotkeySpec.
Import HotkeyService.
Local Open Scope string_scope.

Lemma register_stored config p s os :
  register config p s os = register None p (store_config config s) os.
Proof. reflexivity. Qed.

Lemma remove_string_single a : remove_string a [a] = [].
Proof. unfold remove_string; simpl. now rewrite String.eqb_refl. Qed.

Lemma remove_nat_single k : remove_nat k [k] = [].
Proof. unfold remove_nat; simpl. now rewrite Nat.eqb_refl. Qed.

Lemma add_string_single a : add_string a [a] = [a].
Proof. unfold add_string; simpl. now rewrite String.eqb_refl. Qed.

Lemma isFn_not_empty : isFnAccelerator EmptyString = false.
Proof. reflexivity. Qed.

(** An enabled [register()] on a service whose stored configuration
    names the live binding. *)
Lemma register_enabled_exclusive p s os :
  enabled (_config s) = true ->
  teardownThrows p = false ->
  consistent s os ->
  let '(r, s', os') := register None p s os in
  (live os' <= 1)%nat
  /\ (r = Returns true -> consistent s' os' /\ live os' = 1%nat)
  /\ (r <> Returns true -> os' = snd (unregister p s os)).
Proof.
  destruct s as [[acc en] reg ks ksl fp el].
  destruct os as [sc sp nx]. destruct p as [th sth rr].
  unfold consistent; simpl. intros -> -> [Hsc [Hsp Hk]]. subst sc sp.
  unfold register, unregister, registerFnHotkey, fail, store_config, live,
    remove_nat, remove_string, add_string; simpl.
  destruct (isFnAccelerator acc) eqn:Efn.
  - assert (Hne : String.eqb acc EmptyString = false).
    { destruct (String.eqb_spec acc EmptyString); [subst; discriminate | reflexivity]. }
    rewrite Hne, andb_false_r; simpl.
    destruct reg, ks as [k |]; simpl;
      try (destruct Hk as [F _]; [discriminate | discriminate F]);
      destruct sth, el; simpl; rewrite ?Nat.eqb_refl, ?Efn; simpl;
      repeat split; intros; rewrite ?Efn; simpl;
      try discriminate; try lia; try reflexivity; congruence.
  - destruct ks as [k |];
      [destruct Hk as [_ F]; [discriminate | discriminate F] |].
    rewrite andb_true_r.
    destruct reg, (String.eqb_spec acc EmptyString); subst; simpl;
      destruct rr as [[|] |], el; simpl;
      rewrite ?String.eqb_refl, ?Efn; simpl;
      repeat split; intros; rewrite ?Efn; simpl;
      try discriminate; try lia; try reflexivity; congruence.
Qed.

(** A disabled configuration: with F13 registered, [register] of a
    disabled configuration returns false at its first guard, before
    [unregister()]; F13 stays live and the service still counts itself
    registered. *)
Lemma register_disabled_counterexample :
  let '(s, os) := f13_registered in
  let '(r, s', os') := register (Some (mkConfig "F13" false)) calm s os in
  consistent s os
  /\ shortcuts os = ["F13"]
  /\ r = Returns false
  /\ shortcuts os' = ["F13"]
  /\ _isRegistered s' = true
  /\ os' <> snd (unregister calm (store_config (Some (mkConfig "F13" false)) s)
                           os).
Proof.
  vm_compute. repeat split; try reflexivity; try discriminate.
  exfalso. auto.
Qed.

(** [register(config)] when the live bindings are the ones the stored
    configuration names (the accelerator is unchanged, or nothing was
    registered).  If the configuration is disabled the call returns
    false at once and unregisters nothing.  If it is enabled and the
    teardown does not throw, at most one binding is live after the
    call: exactly the new one when the call returns true, and what
    [unregister()] left when it does not. *)
Theorem register_tears_down_stored_binding config p s os :
  (enabled (_config (store_config config s)) = false ->
   register config p s os = (Returns false, store_config config s, os))
  /\ (enabled (_config (store_config config s)) = true ->
      teardownThrows p = false ->
      consistent (store_config config s) os ->
      let '(r, s', os') := register config p s os in
      (live os' <= 1)%nat
      /\ (r = Returns true -> consistent s' os' /\ live os' = 1%nat)
      /\ (r <> Returns true ->
          os' = snd (unregister p (store_config config s) os))).
Proof.
  split.
  - intros H. unfold register. now rewrite H.
  - intros Hen Hth Hc. rewrite register_stored.
    now apply register_enabled_exclusive.
Qed.

(** Re-registering F13 while F13 is live, on a platform that now
    refuses the shortcut: the old binding is gone and none is live. *)
Lemma register_tears_down_stored_binding_witness :
  let '(s, os) := f13_registered in
  let p := {| teardownThrows := false; spawnThrows := false;
              registerResult := Some false |} in
  register (Some (mkConfig "F13" false)) calm s os
  = (Returns false, store_config (Some (mkConfig "F13" false)) s, os)
  /\ (let '(r, s', os') := register (Some (mkConfig "F13" true)) p s os in
      (live os' <= 1)%nat
      /\ (r = Returns true -> consistent s' os' /\ live os' = 1%nat)
      /\ (r <> Returns true ->
          os' = snd (unregister p (store_config (Some (mkConfig "F13" true)) s)
                                os))).
Proof.
  remember f13_registered as reg eqn:E. vm_compute in E. subst reg.
  cbv zeta. split.
  - apply (register_tears_down_stored_binding
             (Some (mkConfig "F13" false)) calm).
    reflexivity.
  - apply (register_tears_down_stored_binding
             (Some (mkConfig "F13" true))
             {| teardownThrows := false; spawnThrows := false;
                registerResult := Some false |}
             (mkService (mkConfig "F13" true) true None false false false)
             (mkBindings ["F13"] [] 0)).
    + reflexivity.
    + reflexivity.
    + vm_compute. repeat split. exfalso. auto.
Defined.

(** C9.  The claim holds of the design the code states in its own
    comment, "Unregister existing hotkey first", and not of the code:
    [register] stores the new configuration before it calls
    [unregister()], which then tears down the accelerator just stored
    instead of the one that is live.  For a service that has an
    ordinary accelerator registered, a call that registers a different
    ordinary accelerator, the platform accepting it, returns true with
    the old binding still live next to the new one: two bindings are
    live.  [updateConfig], the path of the ['update-hotkey'] IPC
    handler, does the same. *)
Theorem register_changed_accelerator_leaves_two_live next p s os :
  consistent s os ->
  _isRegistered s = true ->
  isFnAccelerator (accelerator (_config s)) = false ->
  isFnAccelerator next = false ->
  next <> accelerator (_config s) ->
  registerResult p = Some true ->
  let '(r, s', os') := register (Some (mkConfig next true)) p s os in
  let '(r2, s2, os2) := updateConfig (Some next) (Some true) p s os in
  r = Returns true
  /\ shortcuts os' = [accelerator (_config s); next]
  /\ live os' = 2%nat
  /\ _isRegistered s' = true
  /\ (r2, s2, os2) = (r, s', os').
Proof.
  destruct s as [[acc en] reg ks ksl fp el], os as [sc sp nx],
    p as [th sth rr].
  unfold consistent; simpl. intros [Hsc [Hsp Hk]] -> Hold Hnext Hne ->.
  rewrite Hold in Hsc. simpl in Hsc. subst sc.
  destruct ks as [k |];
    [destruct Hk as [_ F]; [discriminate | rewrite Hold in F; discriminate F]
    |]. subst sp.
  assert (He : String.eqb next acc = false) by now apply String.eqb_neq.
  unfold updateConfig, register, unregister, store_config, live,
    remove_string, add_string; simpl.
  destruct (negb (next =? EmptyString)), th; simpl;
    rewrite Hnext; simpl; rewrite ?Hnext, ?He; simpl;
    rewrite ?He; simpl; repeat split.
Qed.

(** F13 is registered; the user picks Control+Space. *)
Lemma register_changed_accelerator_leaves_two_live_witness :
  let '(s, os) := f13_registered in
  let '(r, s', os') :=
    register (Some (mkConfig "Control+Space" true)) calm s os in
  r = Returns true /\ shortcuts os' = ["F13"; "Control+Space"].
Proof.
  pose proof (register_changed_accelerator_leaves_two_live "Control+Space"
                calm (fst f13_registered) (snd f13_registered)) as H.
  remember f13_registered as reg eqn:E. vm_compute in E. subst reg.
  cbv [fst snd] in H.
  destruct (register (Some (mkConfig "Control+Space" true)) calm _ _)
    as [[r s'] os'].
  destruct (updateConfig (Some "Control+Space") (Some true) calm _ _)
    as [[r2 s2] os2].
  destruct H as [Hr [Hs _]]; try reflexivity; try discriminate.
  - vm_compute. repeat split. exfalso. auto.
  - split; [exact Hr | exact Hs].
Defined.

Example register_changed_accelerator_keeps_old_binding :
  let '(s, os) := f13_registered in
  let '(r, s', os') :=
    register (Some (mkConfig "Control+Space" true)) calm s os in
  let '(r2, s2, os2) :=
    updateConfig (Some "Control+Space") (Some true) calm s os in
  r = Returns true
  /\ shortcuts os' = ["F13"; "Control+Space"]
  /\ live os' = 2%nat
  /\ r2 = Returns true
  /\ live os2 = 2%nat.
Proof. vm_compute. repeat split. Qed.

End HotkeySpec.

(* ================================================================== *)
(** ** Further properties of the state machine                         *)
(* ================================================================== *)

Module MachineLogSpec.
Import StateMachine MachineLog.

(** X1. An accepted transition follows the table: when [transition]
    returns true, the state it leaves is the table's entry for the
    state it found and the trigger, that state differs from the old
    one, and exactly one event, [stateChange(new, old)], is emitted. *)
Theorem accepted_transition_follows_table now t m :
  fst (fst (transition now t m)) = true ->
  VALID_TRANSITIONS (_currentState m) t
  = Some (_currentState (snd (fst (transition now t m))))
  /\ _currentState (snd (fst (transition now t m))) <> _currentState m
  /\ snd (transition now t m)
     = [stateChange (_currentState (snd (fst (transition now t m))))
                    (_currentState m)].
Proof.
  destruct m as [s st mn]. unfold transition.
  destruct s, t; simpl; try discriminate;
    try (intros _; repeat split; discriminate).
  destruct (getRecordingDuration _ _ <? mn); simpl; [discriminate |].
  intros _; repeat split; discriminate.
Qed.

Lemma accepted_transition_follows_table_witness :
  VALID_TRANSITIONS processing transcription_complete
  = Some (_currentState
            (snd (fst (transition 7000 transcription_complete
                                  (mkMachine processing (Some 5000) 200))))).
Proof.
  apply (accepted_transition_follows_table 7000 transcription_complete
           (mkMachine processing (Some 5000) 200)).
  reflexivity.
Defined.

(** X2. [canTransition] predicts [transition] except for the accidental
    tap: [transition(trigger)] returns true exactly when
    [canTransition(trigger)] is true and the call is not a
    [hotkey_release] in ['recording'] before the minimum duration.  In
    particular a true [canTransition] does not promise that the
    transition will be applied. *)
Theorem canTransition_predicts_transition now t m :
  fst (fst (transition now t m))
  = canTransition t m && negb (tooShort now t m).
Proof.
  destruct m as [s st mn]. unfold transition, canTransition, tooShort.
  destruct s, t; simpl; try reflexivity.
  destruct (getRecordingDuration _ _ <? mn); reflexivity.
Qed.

(** X3. The events tell the whole story: over any sequence of
    [transition] and [reset] calls, each emitted event's
    [previousState] is the state the previous event announced, starting
    from the state before the first call, and the last one announces the
    state the machine is in.  So a listener always knows the current
    state, also after an accidental tap, which returns false. *)
Theorem events_track_state cs :
  forall m,
    follow (_currentState m) (emitted cs m) = Some (_currentState (run cs m)).
Proof.
  induction cs as [| c cs IH]; intros m; [reflexivity |].
  change (run (c :: cs) m) with (run cs (call c m)).
  rewrite <- IH. clear IH.
  destruct m as [s st mn]. destruct c as [t now |]; simpl.
  - unfold transition.
    destruct s, t; simpl; try reflexivity.
    destruct (getRecordingDuration _ _ <? mn); reflexivity.
  - destruct s; reflexivity.
Qed.

End MachineLogSpec.

(* ================================================================== *)
(** ** Further properties of the orchestrator                          *)
(* ================================================================== *)

Module OrchestratorOpsSpec.
Import StateMachine Widget Orchestrator OrchestratorOps.

(** Case analysis on a world and on the tests a handler makes. *)
Ltac split_world w :=
  let s := fresh "s" in
  let pt := fresh "pt" in
  let ft := fresh "ft" in
  let ready := fresh "ready" in
  destruct w as [[s ? ?] ? ? pt ft ? ? ready ? ?];
  unfold sm_currentState in *; simpl in *.

Ltac split_duration :=
  unfold sm_transition, transition; simpl;
  repeat match goal with
  | |- context [getRecordingDuration ?a ?b <? ?c] =>
      destruct (getRecordingDuration a b <? c); simpl
  end.

(** The handlers run to completion are their two parts run back to
    back. *)
Lemma handlers_resume_at_once w :
  onHotkeyPress w
  = match snd (pressBegin w) with
    | Some k => resume k (fst (pressBegin w))
    | None => fst (pressBegin w)
    end
  /\ onWidgetToggle w
     = match snd (toggleBegin w) with
       | Some k => resume k (fst (toggleBegin w))
       | None => fst (toggleBegin w)
       end
  /\ forall m text success,
       onTranscriptionComplete m text success w
       = match snd (completionBegin m text success w) with
         | Some k => resume k (fst (completionBegin m text success w))
         | None => fst (completionBegin m text success w)
         end.
Proof.
  unfold onHotkeyPress, onWidgetToggle, onTranscriptionComplete, pressBegin,
    toggleBegin, completionBegin.
  destruct (sm_currentState w); repeat split; intros; simpl;
    try reflexivity; destruct m; reflexivity.
Qed.

Lemma step_mirror_ok i r :
  mirror_ok (world r) -> mirror_ok (world (step i r)).
Proof.
  unfold mirror_ok. destruct r as [w ks]. simpl. intros H.
  destruct i; simpl.
  - unfold pressBegin. split_world w.
    destruct s, pt, ft, ready; simpl; split_duration;
      try reflexivity; try discriminate; exact H.
  - unfold toggleBegin. split_world w.
    destruct s, pt, ft, ready; simpl; split_duration;
      try reflexivity; try discriminate; exact H.
  - split_world w. destruct s, pt, ft, ready; simpl; split_duration;
      try reflexivity; try discriminate; exact H.
  - unfold completionBegin. split_world w. destruct s, pt, ft, m; simpl;
      try reflexivity; try discriminate; exact H.
  - exact H.
  - unfold fireTimer. destruct (find _ (pending w)) as [t |]; [| exact H].
    assert (H1 : sm_currentState (clearTimeout id w) = recording ->
                 isRecording (clearTimeout id w) = true) by exact H.
    generalize dependent (clearTimeout id w). intros w1 H1.
    destruct (callback t); split_world w1;
      destruct s, pt, ft, ready; simpl;
      try reflexivity; try discriminate; exact H1.
  - destruct (nth_error ks n) as [k |]; [| exact H]. simpl.
    destruct k; [reflexivity | exact H].
  - split_world w. destruct s, pt, ft, ready; simpl; intros F;
      discriminate F.
  - unfold stop. split_world w. destruct pt, ft; exact H.
  - exact H.
  - exact H.
  - exact H.
Qed.

Lemma steps_mirror_ok inputs :
  forall r, mirror_ok (world r) -> mirror_ok (world (steps inputs r)).
Proof.
  induction inputs as [| i inputs IH]; intros r H; simpl; [exact H |].
  apply IH. now apply step_mirror_ok.
Qed.

(** X4. Whatever reaches the orchestrator after start-up -- key
    presses, widget clicks, releases, completions, errors, timers,
    renderer crashes, [stop()], in any order and with the suspended
    handlers resuming at any later point -- the ['get-recording-state']
    query never reports the state ['recording'] with [isRecording]
    false. *)
Theorem query_recording_implies_flag now ready wins inputs :
  let r := getRecordingState
             (world (steps inputs (start (initial now ready wins)))) in
  reply_state r = recording -> reply_isRecording r = true.
Proof.
  apply (steps_mirror_ok inputs (start (initial now ready wins))).
  discriminate.
Qed.

(** Two presses before either capture settles; both resume. *)
Lemma query_recording_implies_flag_witness :
  reply_state
    (getRecordingState
       (world (steps [HotkeyPress; HotkeyPress; Resume 0; Resume 0]
                     (start (initial 5000 true two_displays))))) = recording
  /\ reply_isRecording
       (getRecordingState
          (world (steps [HotkeyPress; HotkeyPress; Resume 0; Resume 0]
                        (start (initial 5000 true two_displays))))) = true.
Proof.
  split; [reflexivity |].
  pose proof (query_recording_implies_flag 5000 true two_displays
                [HotkeyPress; HotkeyPress; Resume 0; Resume 0]) as H.
  cbv zeta in H. apply H. reflexivity.
Defined.

(** X8. A press that finds the capture surface not ready does not leave
    the machine in ['recording']: the start instruction is not sent,
    the machine is reset to ['idle'], the widgets are pushed
    ['recording'] and then ['idle'] -- and the handler still ends by
    setting [isRecording], so the query then reports ['idle'] with
    [isRecording] true. *)
Theorem press_without_renderer_resets w :
  sm_currentState w = idle ->
  rendererReady w = false ->
  let w' := onHotkeyPress w in
  sm_currentState w' = idle
  /\ _recordingStartTime (stateMachine w') = None
  /\ trace w'
     = trace w ++ [CaptureActiveApp; SubmitTrigger hotkey_press;
                   WidgetPush w_recording; ResetMachine; WidgetPush w_idle]
  /\ pending w' = pending (clearProcessingTimeout w)
  /\ reply_isRecording (getRecordingState w') = true.
Proof.
  intros Hs Hr. split_world w. subst s ready.
  destruct pt, ft; simpl; rewrite <- ?app_assoc; repeat split.
Qed.

Lemma press_without_renderer_resets_witness :
  sm_currentState (onHotkeyPress (initial 5000 false two_displays)) = idle
  /\ reply_isRecording
       (getRecordingState (onHotkeyPress (initial 5000 false two_displays)))
     = true.
Proof.
  destruct (press_without_renderer_resets (initial 5000 false two_displays))
    as [Hs [_ [_ [_ Hr]]]]; [reflexivity | reflexivity |].
  split; assumption.
Defined.

(** X9. Crash recovery.  After [handleRendererCrash()] the machine is
    in ['idle'] with no start time and [isRecording] is false, whatever
    the state was; if it was not ['idle'], both timer handles are
    cleared and their timers disarmed.  A crash during ['processing'] or
    ['inserting'] pushes nothing to the widgets, which keep showing what
    they showed; a crash during ['recording'] pushes ['idle'].  The
    reload is scheduled after 1000 ms when the window is alive. *)
Theorem crash_forces_idle alive w :
  let w' := fst (handleRendererCrash alive w) in
  sm_currentState w' = idle
  /\ _recordingStartTime (stateMachine w') = None
  /\ isRecording w' = false
  /\ (sm_currentState w <> idle ->
      processingTimeout w' = None /\ feedbackTimeout w' = None
      /\ pending w' = pending (clearProcessingTimeout w))
  /\ (sm_currentState w = processing \/ sm_currentState w = inserting ->
      widget w' = widget w /\ pushes (trace w') = pushes (trace w))
  /\ (sm_currentState w = recording ->
      widget w' = updateAllWidgets w_idle (widget w))
  /\ snd (handleRendererCrash alive w) = (if alive then Some 1000 else None).
Proof.
  split_world w.
  destruct s, pt, ft, ready; simpl;
    rewrite ?OrchestratorSpec.pushes_app; simpl; rewrite ?app_nil_r;
    repeat split; intros; try discriminate; try reflexivity;
    repeat match goal with
    | H : _ \/ _ |- _ => destruct H
    | H : ?a <> ?a |- _ => now contradiction H
    end; try discriminate.
Qed.

Lemma crash_forces_idle_witness :
  widget (fst (handleRendererCrash true processing_world))
  = widget processing_world
  /\ pending (fst (handleRendererCrash true processing_world)) = [].
Proof.
  destruct (crash_forces_idle true processing_world)
    as [_ [_ [_ [Hclear [Hquiet _]]]]].
  split.
  - apply Hquiet. left. reflexivity.
  - destruct Hclear as [_ [_ Hp]]; [vm_compute; discriminate |].
    rewrite Hp. reflexivity.
Defined.

(** X10. The 2 s feedback timer looks at the state when it fires: in
    ['inserting'] it pushes ['idle'] once, submits
    [insertion_complete], and the machine returns to ['idle'] with the
    start time cleared; in any other state it changes nothing. *)
Theorem feedback_timer_rechecks_state w :
  (sm_currentState w = inserting ->
   let w' := runCallback FeedbackDone w in
   trace w'
   = trace w ++ [WidgetPush w_idle; SubmitTrigger insertion_complete]
       ++ (if rendererReady w then [RendererSend reset_recording_state]
           else [])
   /\ pushes (trace w') = pushes (trace w) ++ [w_idle]
   /\ sm_currentState w' = idle
   /\ _recordingStartTime (stateMachine w') = None
   /\ isRecording w' = false)
  /\ (sm_currentState w <> inserting -> runCallback FeedbackDone w = w).
Proof.
  split; intros H; split_world w.
  - subst s. destruct pt, ft, ready; simpl;
      rewrite ?OrchestratorSpec.pushes_app; simpl;
      rewrite <- ?app_assoc, ?app_nil_r; repeat split.
  - destruct s; try reflexivity. now contradiction H.
Qed.

Lemma feedback_timer_rechecks_state_witness :
  sm_currentState (runCallback FeedbackDone stale_error_world) = idle
  /\ runCallback FeedbackDone processing_world = processing_world.
Proof.
  destruct (feedback_timer_rechecks_state stale_error_world) as [Hin _].
  destruct (feedback_timer_rechecks_state processing_world) as [_ Hout].
  split.
  - apply Hin. reflexivity.
  - apply Hout. vm_compute. discriminate.
Defined.

(** *** Timers *)

Lemma nodup_ids_filter f (l : list Timer) :
  NoDup (map timerId l) -> NoDup (map timerId (filter f l)).
Proof.
  induction l as [| t l IH]; simpl; intros H; [constructor |].
  inversion H as [| ? ? Hn Hd]; subst.
  destruct (f t); simpl; [| now apply IH].
  constructor; [| now apply IH].
  intros Hin. apply Hn. apply in_map_iff in Hin as [x [Hx Hin]].
  apply filter_In in Hin as [Hin _]. apply in_map_iff. now exists x.
Qed.

Lemma fresh_filter f n l :
  fresh_timers n l -> fresh_timers n (filter f l).
Proof.
  intros [Hd Hb]. split; [now apply nodup_ids_filter |].
  apply Forall_forall. intros t Ht. apply filter_In in Ht as [Ht _].
  now apply (proj1 (Forall_forall _ _) Hb).
Qed.

Lemma fresh_snoc n l cb d :
  fresh_timers n l -> fresh_timers (S n) (l ++ [mkTimer n cb d]).
Proof.
  intros [Hd Hb]. split.
  - rewrite map_app; simpl. apply NoDup_app; [exact Hd | | ].
    + constructor; [intros [] | constructor].
    + intros a Ha [Hn | []]. subst a.
      apply in_map_iff in Ha as [t [Ht Hin]].
      pose proof (proj1 (Forall_forall _ _) Hb t Hin) as Hlt.
      simpl in Hlt. rewrite Ht in Hlt. now apply Nat.lt_irrefl in Hlt.
  - apply Forall_app. split.
    + apply Forall_forall. intros t Ht.
      pose proof (proj1 (Forall_forall _ _) Hb t Ht). now apply Nat.lt_lt_succ_r.
    + constructor; [simpl; apply Nat.lt_succ_diag_r | constructor].
Qed.

Lemma quiet_filter f l : quiet l -> quiet (filter f l).
Proof.
  intros H. apply Forall_forall. intros t Ht.
  apply filter_In in Ht as [Ht _]. now apply (proj1 (Forall_forall _ _) H).
Qed.

Lemma quiet_snoc n cb d l :
  cb <> ProcessingWatchdog -> quiet l -> quiet (l ++ [mkTimer n cb d]).
Proof.
  intros Hc H. apply Forall_app. split; [exact H |].
  constructor; [exact Hc | constructor].
Qed.

Lemma quiet_of_guarded_ne s h l :
  watchdog_guarded s h l -> s <> processing -> quiet l.
Proof.
  intros H Hs. apply Forall_forall. intros t Ht Hc.
  destruct (proj1 (Forall_forall _ _) H t Ht Hc) as [E _]. now apply Hs.
Qed.

Lemma quiet_of_guarded_none s l : watchdog_guarded s None l -> quiet l.
Proof.
  intros H. apply Forall_forall. intros t Ht Hc.
  destruct (proj1 (Forall_forall _ _) H t Ht Hc) as [_ E]. discriminate E.
Qed.

Lemma quiet_clear s id l :
  watchdog_guarded s (Some id) l ->
  quiet (filter (fun t => negb (Nat.eqb (timerId t) id)) l).
Proof.
  intros H. apply Forall_forall. intros t Ht Hc.
  apply filter_In in Ht as [Ht Hne].
  destruct (proj1 (Forall_forall _ _) H t Ht Hc) as [_ E].
  injection E as E. rewrite E, Nat.eqb_refl in Hne. discriminate Hne.
Qed.

Lemma quiet_clear_inner s id f l :
  watchdog_guarded s (Some id) l ->
  quiet (filter (fun t => negb (Nat.eqb (timerId t) id)) (filter f l)).
Proof.
  intros H. apply (quiet_clear s).
  apply Forall_forall. intros t Ht.
  apply filter_In in Ht as [Ht _]. now apply (proj1 (Forall_forall _ _) H).
Qed.

Lemma guarded_of_quiet s h l : quiet l -> watchdog_guarded s h l.
Proof.
  intros H. apply Forall_forall. intros t Ht Hc.
  now destruct (proj1 (Forall_forall _ _) H t Ht).
Qed.

Lemma guarded_filter f s h l :
  watchdog_guarded s h l -> watchdog_guarded s h (filter f l).
Proof.
  intros H. apply Forall_forall. intros t Ht.
  apply filter_In in Ht as [Ht _]. now apply (proj1 (Forall_forall _ _) H).
Qed.

Lemma guarded_snoc s h n cb d l :
  cb <> ProcessingWatchdog ->
  watchdog_guarded s h l -> watchdog_guarded s h (l ++ [mkTimer n cb d]).
Proof.
  intros Hc H. apply Forall_app. split; [exact H |].
  constructor; [intros E; now contradiction Hc | constructor].
Qed.

Lemma guarded_enter n d l :
  quiet l ->
  watchdog_guarded processing (Some n) (l ++ [mkTimer n ProcessingWatchdog d]).
Proof.
  intros H. apply Forall_app. split; [now apply guarded_of_quiet |].
  constructor; [intros _; split; reflexivity | constructor].
Qed.

Create HintDb timers.
#[local] Hint Resolve fresh_filter fresh_snoc quiet_filter quiet_snoc
  guarded_filter guarded_snoc guarded_enter : timers.
#[local] Hint Resolve guarded_of_quiet | 5 : timers.
#[local] Hint Extern 1 (_ <> _) => discriminate : timers.
#[local] Hint Extern 1 (quiet (filter _ _)) =>
  first [eapply quiet_clear; eassumption
        | eapply quiet_clear_inner; eassumption] : timers.
#[local] Hint Extern 2 (quiet ?l) =>
  match goal with
  | H : watchdog_guarded _ None l |- _ => exact (quiet_of_guarded_none _ _ H)
  | H : watchdog_guarded _ _ l |- _ =>
      apply (quiet_of_guarded_ne _ _ _ H); discriminate
  end : timers.

Ltac timers := split; solve [eauto 8 with timers].

Lemma step_timers_wf i r :
  timers_wf (world r) -> timers_wf (world (step i r)).
Proof.
  unfold timers_wf. destruct r as [w ks]. simpl. intros [Hf Hg].
  destruct i; simpl.
  - unfold pressBegin. split_world w.
    destruct s, pt, ft, ready; simpl; split_duration; timers.
  - unfold toggleBegin. split_world w.
    destruct s, pt, ft, ready; simpl; split_duration; timers.
  - split_world w. destruct s, pt, ft, ready; simpl; split_duration; timers.
  - unfold completionBegin. split_world w.
    destruct s, pt, ft, m; simpl; timers.
  - split_world w. timers.
  - split_world w. unfold fireTimer; simpl.
    destruct (find _ _) as [t |]; [| timers].
    destruct (callback t), s, pt, ft, ready; simpl; timers.
  - destruct (nth_error ks n) as [k |]; [| split; assumption]. simpl.
    destruct k; split_world w.
    + destruct s, pt, ft, ready; simpl; split_duration; timers.
    + timers.
  - split_world w. destruct s, pt, ft, ready; simpl; timers.
  - unfold stop. split_world w. destruct s, pt, ft; simpl; timers.
  - split_world w. timers.
  - split_world w. timers.
  - split_world w. timers.
Qed.

Lemma steps_timers_wf inputs :
  forall r, timers_wf (world r) -> timers_wf (world (steps inputs r)).
Proof.
  induction inputs as [| i inputs IH]; intros r H; simpl; [exact H |].
  apply IH. now apply step_timers_wf.
Qed.

Lemma initial_timers_wf now ready wins : timers_wf (initial now ready wins).
Proof. repeat constructor. Qed.

Lemma same_id_at_most_one (l : list Timer) k :
  NoDup (map timerId l) -> Forall (fun t => timerId t = k) l ->
  (List.length l <= 1)%nat.
Proof.
  destruct l as [| a [| b l]]; simpl; intros Hd Hk; try lia.
  inversion Hk as [| ? ? Ha Hk']; subst. inversion Hk' as [| ? ? Hb _]; subst.
  inversion Hd as [| ? ? Hn _]; subst. exfalso. apply Hn. left. congruence.
Qed.

(** X5. Whatever reaches the orchestrator after start-up -- renderer
    crashes and [stop()] included, in any order and with the suspended
    handlers resuming at any later point -- a processing watchdog is
    armed only while the machine is in ['processing'], it is the timer
    that [processingTimeout] holds, and at most one is armed; timer
    handles are never reused. *)
Theorem watchdog_only_while_processing now ready wins inputs :
  let w := world (steps inputs (start (initial now ready wins))) in
  (forall t, In t (pending w) -> callback t = ProcessingWatchdog ->
             sm_currentState w = processing
             /\ processingTimeout w = Some (timerId t))
  /\ (List.length (watchdogs w) <= 1)%nat
  /\ NoDup (map timerId (pending w)).
Proof.
  intros w.
  destruct (steps_timers_wf inputs (start (initial now ready wins))
              (initial_timers_wf now ready wins)) as [[Hd Hb] Hg].
  fold w in Hd, Hb, Hg. split; [| split]; [| | exact Hd].
  - intros t Ht. now apply (proj1 (Forall_forall _ _) Hg).
  - unfold watchdogs. destruct (processingTimeout w) as [k |] eqn:Epk.
    + apply (same_id_at_most_one _ k); [now apply nodup_ids_filter |].
      apply Forall_forall. intros t Ht. apply filter_In in Ht as [Ht Hc].
      destruct (callback t) eqn:Ec; try discriminate Hc.
      destruct (proj1 (Forall_forall _ _) Hg t Ht Ec) as [_ E]. congruence.
    + destruct (filter _ _) as [| t l] eqn:Ef; simpl; [lia |].
      assert (Ht : In t (filter
                (fun t => match callback t with
                          | ProcessingWatchdog => true | _ => false end)
                (pending w))) by (rewrite Ef; now left).
      apply filter_In in Ht as [Ht Hc].
      destruct (callback t) eqn:Ec; try discriminate Hc.
      destruct (proj1 (Forall_forall _ _) Hg t Ht Ec) as [_ E]. discriminate E.
Qed.

Lemma watchdog_only_while_processing_witness :
  sm_currentState processing_world = processing
  /\ processingTimeout processing_world = Some 0%nat.
Proof.
  pose proof (watchdog_only_while_processing 5000 true two_displays
                [HotkeyPress; Resume 0; Tick 1000; HotkeyPress]) as H.
  cbv zeta in H. destruct H as [H _].
  specialize (H (mkTimer 0 ProcessingWatchdog 30000)).
  apply H.
  - vm_compute. left. reflexivity.
  - reflexivity.
Defined.


(** *** Whole activations *)

Lemma find_fresh n cb d l :
  Forall (fun t => (timerId t < n)%nat) l ->
  find (fun t => Nat.eqb (timerId t) n) (l ++ [mkTimer n cb d])
  = Some (mkTimer n cb d).
Proof.
  induction l as [| t l IH]; simpl; intros H.
  - now rewrite Nat.eqb_refl.
  - inversion H as [| ? ? Hlt Hl]; subst.
    destruct (Nat.eqb_spec (timerId t) n) as [E | _]; [lia | now apply IH].
Qed.

(** X6. One full activation after start-up, with the capture surface
    ready: a press; the capture of the foreground application settling
    [latency] ms later, at a time other than 0, which is when the
    recording starts; a second press at least the minimum duration
    after that; a completion (whose [insert], for ['paste'], settles
    [wait] ms later); and the expiry of the feedback timer.  The
    machine is back in ['idle'] with no start time, no timer is armed
    and no handler is left suspended; the foreground application was
    captured once, before the first trigger; the widgets were pushed
    ['recording'], ['processing'], the delivery outcome and ['idle'],
    in this order. *)
Theorem full_activation_returns_to_idle
    now latency d wait wins method text success :
  now + latency <> 0 ->
  200 <= d ->
  let r :=
    steps ([HotkeyPress; Tick latency; Resume 0; Tick d; HotkeyPress]
             ++ completionInputs method text success wait
             ++ [TimerExpires 1])
          (start (initial now true wins)) in
  sm_currentState (world r) = idle
  /\ _recordingStartTime (stateMachine (world r)) = None
  /\ isRecording (world r) = false
  /\ pending (world r) = []
  /\ suspended r = []
  /\ trace (world r)
     = [CaptureActiveApp; SubmitTrigger hotkey_press; WidgetPush w_recording;
        RendererSend start_recording;
        SubmitTrigger hotkey_release; WidgetPush w_processing;
        RendererSend stop_recording;
        SubmitTrigger transcription_complete;
        match method with
        | clipboard_only => CopyToClipboardOnly text
        | paste => Insert text
        end;
        WidgetPush (if success then w_success else w_error);
        WidgetPush w_idle; SubmitTrigger insertion_complete;
        RendererSend reset_recording_state].
Proof.
  intros Hnow Hd.
  assert (E0 : (now + latency =? 0) = false) by now apply Z.eqb_neq.
  assert (E1 : (now + latency + d - (now + latency) <? 200) = false)
    by (apply Z.ltb_ge; lia).
  destruct method;
    unfold completionInputs, steps, start, initial, suspend, pressBegin,
      resume, sm_transition, transition, getRecordingDuration; simpl;
    unfold suspend, pressBegin, sm_transition, transition,
      getRecordingDuration; simpl;
    rewrite E0, E1; simpl; repeat split.
Qed.

Lemma full_activation_returns_to_idle_witness :
  sm_currentState
    (world
       (steps ([HotkeyPress; Tick 100; Resume 0; Tick 1000; HotkeyPress]
                 ++ completionInputs paste "hello world" true 150
                 ++ [TimerExpires 1])
              (start (initial 5000 true two_displays)))) = idle.
Proof.
  apply (full_activation_returns_to_idle 5000 100 1000 150 two_displays paste
           "hello world" true); [discriminate | lia].
Defined.

(** X7. An accidental tap after start-up: a press, the capture
    settling [latency] ms later, and a second press less than the
    minimum duration after that.  The machine is back in ['idle'], no
    timer is armed and no watchdog was started; the widgets go
    ['recording'] then ['idle'] and never show ['processing']; the
    capture surface is told to start and then to reset its recording
    state, and is never told to stop.  The duration is counted from the
    moment the capture settles: a second press that arrives before that
    finds the machine still in ['idle'], captures again, and once both
    handlers have resumed the machine is in ['recording'], the second
    [hotkey_press] having been rejected. *)
Theorem accidental_tap_returns_to_idle now latency d wins :
  d < 200 ->
  (let r := steps [HotkeyPress; Tick latency; Resume 0; Tick d; HotkeyPress]
                  (start (initial now true wins)) in
   sm_currentState (world r) = idle
   /\ _recordingStartTime (stateMachine (world r)) = None
   /\ isRecording (world r) = false
   /\ pending (world r) = []
   /\ nextTimer (world r) = 0%nat
   /\ suspended r = []
   /\ trace (world r)
      = [CaptureActiveApp; SubmitTrigger hotkey_press; WidgetPush w_recording;
         RendererSend start_recording;
         SubmitTrigger hotkey_release;
         RendererSend reset_recording_state; WidgetPush w_idle])
  /\ (let r := steps [HotkeyPress; Tick d; HotkeyPress; Tick latency;
                      Resume 0; Resume 0]
                     (start (initial now true wins)) in
      sm_currentState (world r) = recording
      /\ _recordingStartTime (stateMachine (world r)) = Some (now + d + latency)
      /\ isRecording (world r) = true
      /\ suspended r = []
      /\ trace (world r)
         = [CaptureActiveApp; CaptureActiveApp;
            SubmitTrigger hotkey_press; WidgetPush w_recording;
            RendererSend start_recording; SubmitTrigger hotkey_press]).
Proof.
  intros Hd.
  assert (E : ((if now + latency =? 0 then 0
                else now + latency + d - (now + latency)) <? 200) = true).
  { destruct (now + latency =? 0); apply Z.ltb_lt; lia. }
  split.
  - unfold steps, start, initial, suspend, pressBegin, resume, sm_transition,
      transition, getRecordingDuration; simpl.
    unfold suspend, pressBegin, sm_transition, transition,
      getRecordingDuration; simpl.
    rewrite E; simpl. repeat split.
  - unfold steps, start, initial, suspend, pressBegin, resume, sm_transition,
      transition; simpl. repeat split.
Qed.

Lemma accidental_tap_returns_to_idle_witness :
  sm_currentState
    (world (steps [HotkeyPress; Tick 100; Resume 0; Tick 50; HotkeyPress]
                  (start (initial 5000 true two_displays)))) = idle
  /\ sm_currentState
       (world (steps [HotkeyPress; Tick 50; HotkeyPress; Tick 100;
                      Resume 0; Resume 0]
                     (start (initial 5000 true two_displays)))) = recording.
Proof.
  destruct (accidental_tap_returns_to_idle 5000 100 50 two_displays)
    as [[Htap _] [Hdouble _]]; [lia |].
  split; assumption.
Defined.

(** Unfolds the handlers without touching the lists they build. *)
Ltac unfold_handlers :=
  cbv [callback runCallback clearTimeout with_pending sm_currentState
       stateMachine clock isRecording processingTimeout feedbackTimeout
       pending nextTimer rendererReady widget trace _currentState
       RecordingState_beq snd fst sm_transition transition VALID_TRANSITIONS
       StateTrigger_beq andb push log with_machine fold_left onStateChange
       onStateChange_idle clearProcessingTimeout with_processingTimeout
       with_feedbackTimeout with_isRecording negb set_state set_start
       resetRendererRecordingState watchdogs _recordingStartTime
       _minRecordingDuration].

Lemma quiet_no_watchdogs l :
  quiet l ->
  filter (fun t => match callback t with
                   | ProcessingWatchdog => true
                   | _ => false
                   end) l = [].
Proof.
  induction l as [| t l IH]; intros H; [reflexivity |].
  inversion H as [| ? ? Hc Hl]; subst. simpl.
  destruct (callback t); try (now apply IH). now contradiction Hc.
Qed.

(** X11. The explicit error path.  In ['processing'], with fresh timer
    handles, a transcription error followed by the expiry of the timer
    it armed pushes ['error'] and then ['idle'] to the widgets, submits
    ['error'], and leaves the machine in ['idle'] with no start time,
    both timer handles cleared and no processing watchdog armed. *)
Theorem error_then_timer_returns_to_idle w :
  timers_wf w ->
  sm_currentState w = processing ->
  let w' := world (steps [TranscriptionError; TimerExpires (nextTimer w)]
                         (start w)) in
  sm_currentState w' = idle
  /\ _recordingStartTime (stateMachine w') = None
  /\ pushes (trace w') = pushes (trace w) ++ [w_error; w_idle]
  /\ submitted (trace w') = submitted (trace w) ++ [trigger_error]
  /\ processingTimeout w' = None
  /\ feedbackTimeout w' = None
  /\ watchdogs w' = [].
Proof.
  intros [[Hd Hb] Hg] Hs.
  destruct w as [[s st mn] clk rec pt ft pend nt ready wid tr].
  unfold sm_currentState in Hs; simpl in Hs, Hb, Hg, Hd. subst s.
  assert (Hg' : watchdog_guarded processing pt
                  (pend ++ [mkTimer nt DeferredError 3000]))
    by (apply guarded_snoc; [discriminate | exact Hg]).
  cbv zeta.
  change (world (steps _ _)) with
    (fireTimer nt
       (onTranscriptionError
          (mkWorld (mkMachine processing st mn) clk rec pt ft pend nt ready
                   wid tr))).
  cbv [onTranscriptionError push log setTimeout with_feedbackTimeout
       stateMachine clock isRecording processingTimeout feedbackTimeout
       pending nextTimer rendererReady widget trace].
  unfold fireTimer. cbv [pending]. rewrite (find_fresh _ _ _ _ Hb).
  destruct pt as [k |], ready; unfold_handlers;
    rewrite ?OrchestratorSpec.pushes_app, ?OrchestratorSpec.submitted_app;
    simpl; rewrite <- ?app_assoc, ?app_nil_r; simpl;
    repeat split; apply quiet_no_watchdogs; eauto 6 with timers.
Qed.


Lemma error_then_timer_returns_to_idle_witness :
  sm_currentState
    (world
       (steps [TranscriptionError; TimerExpires (nextTimer processing_world)]
              (start processing_world))) = idle.
Proof.
  apply (error_then_timer_returns_to_idle processing_world).
  - apply (steps_timers_wf [HotkeyPress; Resume 0; Tick 1000; HotkeyPress]
             (start (initial 5000 true two_displays))).
    apply initial_timers_wf.
  - reflexivity.
Defined.

End OrchestratorOpsSpec.

(* ================================================================== *)
(** ** Properties of the text insertion service                        *)
(* ================================================================== *)

Module TextInsertionSpec.
Import Widget Orchestrator TextInsertion.
Local Open Scope string_scope.
Local Open Scope list_scope.

(** X12. Empty or white-space-only text is refused by both delivery
    operations: the result has [success = false], nothing is written
    to the clipboard, no script is run and no notification is shown;
    the captured application is forgotten all the same. *)
Theorem blank_text_is_refused m text focusOk pasteOk s :
  isBlank text = true ->
  success (fst (deliver m text focusOk pasteOk s)) = false
  /\ actions (snd (deliver m text focusOk pasteOk s)) = actions s
  /\ getCapturedApp (snd (deliver m text focusOk pasteOk s)) = None.
Proof.
  intros H. unfold deliver, insert, copyToClipboardOnly.
  destruct m; rewrite H; repeat split.
Qed.

Lemma blank_text_is_refused_witness :
  success (fst (deliver paste "  " true true
                        (mkTextService (Some "Notes") []))) = false.
Proof.
  apply (blank_text_is_refused paste "  " true true
           (mkTextService (Some "Notes") [])).
  reflexivity.
Defined.

(** Unicode white space counts: a text of ideographic and no-break
    spaces is blank and is refused, and white space of any kind around
    an application name is trimmed away. *)
Example unicode_white_space_is_blank :
  isBlank (ideographic_space ++ no_break_space)%string = true
  /\ success (fst (insert ideographic_space true true
                          new_TextInsertionService)) = false
  /\ actions (snd (insert ideographic_space true true
                          new_TextInsertionService)) = []
  /\ jsTrim (ideographic_space ++ " Notes" ++ no_break_space ++ " ")%string
     = "Notes"
  /\ isBlank (" a" ++ ideographic_space)%string = false.
Proof. repeat split. Qed.

(** X13. [insert] never loses a non-blank text.  Whatever happens to
    the focus script and to the paste keystroke, the text is written to
    the clipboard, after the captured application (if any) was
    activated and before the keystroke; the result has
    [success = true]; its method is ['paste'] exactly when the keystroke
    script ran, and otherwise a notification is shown; the captured
    application is forgotten. *)
Theorem insert_always_delivers text focusOk pasteOk s :
  isBlank text = false ->
  let '(r, s') := insert text focusOk pasteOk s in
  success r = true
  /\ method r = (if pasteOk then paste else clipboard_only)
  /\ actions s'
     = actions s
       ++ match _capturedAppName s with
          | Some app => if String.eqb app EmptyString then []
                        else [Activate app]
          | None => []
          end
       ++ [WriteClipboard text; PasteKeystroke]
       ++ (if pasteOk then [] else [ShowNotification])
  /\ getCapturedApp s' = None.
Proof.
  intros H. unfold insert, restoreFocus. rewrite H.
  destruct s as [[app |] acts]; simpl.
  - destruct (String.eqb app EmptyString), pasteOk; simpl;
      rewrite <- ?app_assoc; repeat split.
  - destruct pasteOk; simpl; rewrite <- ?app_assoc; repeat split.
Qed.

Lemma insert_always_delivers_witness :
  actions (snd (insert "hello world" false false
                       (mkTextService (Some "Notes") [])))
  = [Activate "Notes"; WriteClipboard "hello world"; PasteKeystroke;
     ShowNotification].
Proof.
  pose proof (insert_always_delivers "hello world" false false
                (mkTextService (Some "Notes") []) eq_refl) as H.
  destruct (insert "hello world" false false
                   (mkTextService (Some "Notes") [])) as [r s'].
  destruct H as [_ [_ [H _]]]. exact H.
Defined.

Lemma apply_op_presentable o s :
  presentable (_capturedAppName s) ->
  presentable (_capturedAppName (apply_op o s)).
Proof.
  intros H. destruct o; simpl.
  - unfold captureActiveApp. destruct stdout as [out |]; [| exact H].
    destruct (String.eqb_spec (jsTrim out) EmptyString); [exact H |].
    destruct (String.eqb_spec (jsTrim out) "Koe"); [exact H |].
    destruct (String.eqb_spec (jsTrim out) "Electron"); [exact H |].
    simpl. repeat split; congruence.
  - unfold insert, restoreFocus. destruct (isBlank text); simpl;
      [repeat split; discriminate |].
    destruct (_capturedAppName s) as [app |];
      [destruct (String.eqb app EmptyString) |];
      destruct pasteOk; simpl; repeat split; discriminate.
  - unfold copyToClipboardOnly. destruct (isBlank text); simpl;
      repeat split; discriminate.
  - unfold restoreFocus. destruct (_capturedAppName s) as [app |] eqn:E;
      [destruct (String.eqb app EmptyString) |]; simpl; rewrite ?E; exact H.
  - repeat split; discriminate.
Qed.

(** X14. The service never remembers itself: over any sequence of
    operations on a fresh service, the captured application is never
    ["Koe"], never ["Electron"] and never the empty name.  A capture
    that is rejected for that reason, or whose script fails, returns
    null and leaves the previously captured application in place. *)
Theorem never_captures_itself ops :
  presentable (getCapturedApp (run_ops ops new_TextInsertionService))
  /\ (forall stdout s,
        fst (captureActiveApp stdout s) = None ->
        getCapturedApp (snd (captureActiveApp stdout s)) = getCapturedApp s).
Proof.
  split.
  - unfold run_ops, getCapturedApp.
    assert (H : presentable (_capturedAppName new_TextInsertionService))
      by (repeat split; discriminate).
    generalize dependent new_TextInsertionService.
    induction ops as [| o ops IH]; intros s H; simpl; [exact H |].
    apply IH. now apply apply_op_presentable.
  - intros stdout s. unfold captureActiveApp, getCapturedApp.
    destruct stdout as [out |]; [| reflexivity].
    destruct (_ && _); [discriminate | reflexivity].
Qed.

Lemma never_captures_itself_witness :
  getCapturedApp
    (snd (captureActiveApp (Some "Koe") (mkTextService (Some "Notes") [])))
  = Some "Notes".
Proof.
  destruct (never_captures_itself []) as [_ H].
  apply (H (Some "Koe") (mkTextService (Some "Notes") [])).
  reflexivity.
Defined.

(** X15. What the widgets show after a completion depends only on the
    text: the completion handler, fed the result of the delivery it
    called, pushes ['error'] when the transcribed text is blank and
    ['success'] otherwise -- also when the paste keystroke failed and
    the text was only left on the clipboard. *)
Theorem completion_feedback_depends_on_text m text focusOk pasteOk s w :
  sm_currentState w = StateMachine.processing ->
  let r := fst (deliver m text focusOk pasteOk s) in
  pushes (trace (onTranscriptionComplete m text (success r) w))
  = pushes (trace w) ++ [if isBlank text then w_error else w_success].
Proof.
  intros Hs r.
  assert (Hr : success r = negb (isBlank text)).
  { unfold r, deliver, insert, copyToClipboardOnly, restoreFocus.
    destruct m, (isBlank text); try reflexivity.
    destruct (_capturedAppName s) as [app |];
      [destruct (String.eqb app EmptyString) |]; destruct pasteOk;
      reflexivity. }
  rewrite Hr. clear Hr r.
  destruct w as [[st ? ?] ? ? pt ft ? ? ? ? ?].
  unfold sm_currentState in Hs. simpl in Hs. subst st.
  destruct pt, ft, m, (isBlank text); simpl;
    rewrite ?OrchestratorSpec.pushes_app; simpl;
    rewrite ?app_nil_r; reflexivity.
Qed.

Lemma completion_feedback_depends_on_text_witness :
  pushes (trace (onTranscriptionComplete paste "hello world"
                   (success (fst (deliver paste "hello world" true false
                                          new_TextInsertionService)))
                   processing_world))
  = pushes (trace processing_world) ++ [w_success].
Proof.
  apply (completion_feedback_depends_on_text paste "hello world" true false
           new_TextInsertionService processing_world).
  reflexivity.
Defined.

End TextInsertionSpec.

(* ================================================================== *)
(** ** Properties of the configuration service                         *)
(* ================================================================== *)

Module ConfigServiceSpec.
Import Orchestrator HotkeyService ConfigService.
Local Open Scope string_scope.
Local Open Scope list_scope.

(** X16. What start-up does to the stored configuration: whatever the
    files on disk hold, after the constructor the insertion method
    reads ['paste'], and the hotkey's accelerator is neither ["Shift+Z"]
    nor ["F13"] nor empty -- a stored ['clipboard_only'] method and the
    two presets F13 and Shift+Z do not survive a restart. *)
Theorem startup_normalises_config oldFile newFile :
  let s := new_ConfigService oldFile newFile in
  getInsertionMethod s = paste
  /\ accelerator (getHotkey s) <> "Shift+Z"
  /\ accelerator (getHotkey s) <> "F13"
  /\ accelerator (getHotkey s) <> EmptyString.
Proof.
  unfold new_ConfigService.
  destruct (migrateFromGammawave oldFile newFile) as [[h m f d] |];
    [| repeat split; discriminate].
  assert (Hacc : forall a : string,
            (a =? "Shift+Z") || (a =? "F13") = false ->
            (if a =? EmptyString then "Fn" else a) <> "Shift+Z"
            /\ (if a =? EmptyString then "Fn" else a) <> "F13"
            /\ (if a =? EmptyString then "Fn" else a) <> EmptyString).
  { intros a Ha. apply orb_false_iff in Ha as [H1 H2].
    apply String.eqb_neq in H1, H2.
    destruct (String.eqb_spec a EmptyString);
      repeat split; try discriminate; assumption. }
  destruct m as [[|] |], h as [[[a |] e] |];
    unfold getInsertionMethod, getHotkey, get_hotkey, get_insertionMethod;
    simpl;
    try (destruct ((a =? "Shift+Z") || (a =? "F13")) eqn:Ea; simpl;
         [| specialize (Hacc a Ea)]);
    repeat split; try discriminate; try (now apply Hacc).
Qed.

(** X17. Stored settings read back.  [getHotkey] after [setHotkey(c)]
    returns [c], except that an empty accelerator reads back as the
    default ["Fn"]; [load] after [save(p)] returns, for each setting,
    the value [p] gives, and the previous value where [p] gives none;
    after [reset()] every setting reads as its default. *)
Theorem config_reads_back c p s :
  getHotkey (setHotkey c s)
  = {| accelerator := if String.eqb (accelerator c) EmptyString
                      then "Fn" else accelerator c;
       enabled := enabled c |}
  /\ insertionMethod (load (save p s))
     = match p_insertionMethod p with
       | Some m => m | None => insertionMethod (load s) end
  /\ showFloatingIndicator (load (save p s))
     = match p_showFloatingIndicator p with
       | Some b => b | None => showFloatingIndicator (load s) end
  /\ minRecordingDuration (load (save p s))
     = match p_minRecordingDuration p with
       | Some d => d | None => minRecordingDuration (load s) end
  /\ hotkey (load (save p s))
     = match p_hotkey p with
       | Some h => getHotkey (setHotkey h s) | None => hotkey (load s) end
  /\ load (reset_store s) = DEFAULT_CONFIG.
Proof.
  destruct p as [[h |] [m |] [b |] [d |]], s as [sh sm sb sd];
    repeat split.
Qed.

End ConfigServiceSpec.

(* ================================================================== *)
(** ** Further properties of the hotkey service                        *)
(* ================================================================== *)

Module HotkeyOpsSpec.
Import HotkeyService Accelerators FnKey.
Local Open Scope string_scope.
Local Open Scope list_scope.

(** X18. [unregister()] is safe to repeat: on a service that does not
    count itself registered it touches no binding and changes nothing,
    and a second [unregister()] after a first one changes nothing
    more, whatever the platform does.  The flag is cleared even when
    the teardown throws, so a binding whose teardown threw stays live
    and no later [unregister()] removes it. *)
Theorem unregister_is_idempotent p p' s os :
  (_isRegistered s = false -> unregister p s os = (s, os))
  /\ unregister p' (fst (unregister p s os)) (snd (unregister p s os))
     = unregister p s os
  /\ _isRegistered (fst (unregister p s os)) = false
  /\ (teardownThrows p = true -> snd (unregister p s os) = os).
Proof.
  destruct s as [[acc en] reg ks ksl fp el], os as [sc sp nx].
  unfold unregister; simpl.
  split; [| split; [| split]].
  - intros ->. reflexivity.
  - destruct reg, (negb (acc =? EmptyString)), (isFnAccelerator acc),
      ks as [k |], (teardownThrows p); reflexivity.
  - destruct reg, (negb (acc =? EmptyString)), (isFnAccelerator acc),
      ks as [k |], (teardownThrows p); reflexivity.
  - intros ->.
    destruct reg, (negb (acc =? EmptyString)), (isFnAccelerator acc),
      ks as [k |]; reflexivity.
Qed.

Lemma unregister_is_idempotent_witness :
  unregister calm (new_GlobalHotkeyService None) no_bindings
  = (new_GlobalHotkeyService None, no_bindings).
Proof.
  destruct (unregister_is_idempotent calm calm (new_GlobalHotkeyService None)
              no_bindings) as [H _].
  apply H. reflexivity.
Defined.

(** X19. [unregister()] on a service whose bindings are its own, with a
    non-empty accelerator and a teardown that does not throw, leaves no
    binding live, and the bindings are still the service's own. *)
Theorem unregister_releases_binding p s os :
  consistent s os ->
  teardownThrows p = false ->
  accelerator (_config s) <> EmptyString ->
  live (snd (unregister p s os)) = 0%nat
  /\ consistent (fst (unregister p s os)) (snd (unregister p s os)).
Proof.
  destruct s as [[acc en] reg ks ksl fp el], os as [sc sp nx].
  unfold consistent, unregister, live, remove_nat, remove_string; simpl.
  intros [Hsc [Hsp Hk]] -> Hacc. subst sc sp.
  apply String.eqb_neq in Hacc. rewrite Hacc. simpl.
  destruct reg, (isFnAccelerator acc) eqn:Efn, ks as [k |]; simpl;
    rewrite ?Nat.eqb_refl, ?String.eqb_refl, ?Efn; simpl;
    try (destruct Hk as [F1 F2]; [discriminate | discriminate]);
    repeat split; try reflexivity;
    try (intros F; first [discriminate F | now contradiction F]);
    match goal with
    | F : ?x <> ?x |- _ => now contradiction F
    end.
Qed.

Lemma unregister_releases_binding_witness :
  live (snd (unregister calm (fst f13_registered) (snd f13_registered)))
  = 0%nat.
Proof.
  destruct (unregister_releases_binding calm (fst f13_registered)
              (snd f13_registered)) as [H _].
  - vm_compute. repeat split. exfalso. auto.
  - reflexivity.
  - vm_compute. discriminate.
  - exact H.
Defined.

(** X20. After a [register] call whose stored configuration is enabled,
    [isRegistered] is true exactly when the call returned true; after a
    call whose stored configuration is disabled it is what it was
    before.  [updateConfig] with [enabled: false] returns true and
    leaves [isRegistered] false. *)
Theorem isRegistered_reflects_register config acc p s os :
  (enabled (_config (store_config config s)) = true ->
   let '(r, s', _) := register config p s os in
   _isRegistered s' = true <-> r = Returns true)
  /\ (enabled (_config (store_config config s)) = false ->
      let '(_, s', _) := register config p s os in
      _isRegistered s' = _isRegistered s)
  /\ (let '(r, s', _) := updateConfig acc (Some false) p s os in
      r = Returns true /\ _isRegistered s' = false).
Proof.
  split; [| split].
  - intros Hen. unfold register. rewrite Hen. simpl.
    destruct (unregister p (store_config config s) os) as [s1 os1] eqn:Eu.
    assert (H1 : _isRegistered s1 = false).
    { pose proof (unregister_is_idempotent p p (store_config config s) os)
        as [_ [_ [H _]]]. now rewrite Eu in H. }
    unfold registerFnHotkey, fail.
    destruct (isFnAccelerator _), (spawnThrows p),
      (registerResult p) as [[|] |], (errorListeners s1); simpl;
      rewrite ?H1; split; intros F; try discriminate F; reflexivity.
  - intros Hen. unfold register. rewrite Hen. simpl.
    destruct config; reflexivity.
  - unfold updateConfig. simpl.
    destruct (unregister p _ os) as [s1 os1] eqn:Eu.
    split; [reflexivity |].
    match type of Eu with
    | unregister p ?s0 os = _ =>
        pose proof (unregister_is_idempotent p p s0 os) as [_ [_ [H _]]]
    end.
    now rewrite Eu in H.
Qed.

Lemma isRegistered_reflects_register_witness :
  _isRegistered
    (snd (fst (register (Some (mkConfig "F13" false)) calm
                        (fst f13_registered) (snd f13_registered))))
  = true.
Proof.
  pose proof (isRegistered_reflects_register (Some (mkConfig "F13" false))
                None calm (fst f13_registered) (snd f13_registered))
    as [_ [H _]].
  specialize (H eq_refl).
  destruct (register (Some (mkConfig "F13" false)) calm
                     (fst f13_registered) (snd f13_registered))
    as [[r s'] os'].
  simpl. rewrite H. reflexivity.
Defined.

(** *** The Fn key *)

Lemma no_double_press_after_press l :
  no_double_press (sig_press :: l) = true ->
  no_double_press l = true.
Proof. destruct l as [| [] l]; simpl; intros H; try discriminate; exact H. Qed.

Lemma listen_guard evs :
  forall s,
    no_double_press (listen evs s) = true
    /\ (_fnPressed s = true ->
        no_double_press (sig_press :: listen evs s) = true).
Proof.
  induction evs as [| ev evs IH]; intros s; [split; reflexivity |].
  change (listen (ev :: evs) s)
    with (let '(_, s', out) := keyspyListener ev s in out ++ listen evs s').
  unfold keyspyListener.
  destruct (negb (isFnEvent ev)); [exact (IH s) |].
  destruct (ev_state ev); [destruct (_fnPressed s) eqn:Ep |].
  - destruct (IH s) as [H1 H2]. split; [exact H1 |].
    intros _. apply H2. exact Ep.
  - destruct (IH (set_fnPressed true s)) as [_ H2].
    split; [| discriminate]. apply H2. reflexivity.
  - destruct (IH (set_fnPressed false s)) as [H1 _].
    split; [exact H1 | intros _; exact H1].
Qed.

(** X21. Key repeat is filtered out: over any sequence of key events,
    starting from any state of the service, the listener never gives
    two [press] signals without a [release] between them; events of
    other keys give no signal and leave the service as it is.  Holding
    Fn, with any number of repeated key-down events, and releasing it
    gives exactly one [press] and one [release]. *)
Theorem fn_presses_are_deduplicated :
  (forall evs s, no_double_press (listen evs s) = true)
  /\ (forall ev s, isFnEvent ev = false -> keyspyListener ev s = (false, s, []))
  /\ (forall n s,
        _fnPressed s = false ->
        listen (fnDown :: repeat fnDown n ++ [fnUp]) s
        = [sig_press; sig_release]).
Proof.
  split; [| split].
  - intros evs s. apply listen_guard.
  - intros ev s H. unfold keyspyListener. now rewrite H.
  - intros n s Hs.
    change (listen (fnDown :: repeat fnDown n ++ [fnUp]) s)
      with (let '(_, s', out) := keyspyListener fnDown s in
            out ++ listen (repeat fnDown n ++ [fnUp]) s').
    unfold keyspyListener at 1. simpl. rewrite Hs. simpl. f_equal.
    assert (Hp : _fnPressed (set_fnPressed true s) = true) by reflexivity.
    generalize dependent (set_fnPressed true s). clear Hs.
    induction n as [| n IH]; intros s' Hp; simpl.
    + reflexivity.
    + unfold keyspyListener at 1. simpl. rewrite Hp. simpl. now apply IH.
Qed.

Lemma fn_presses_are_deduplicated_witness :
  listen [fnDown; fnDown; fnDown; fnUp] (new_GlobalHotkeyService None)
  = [sig_press; sig_release].
Proof.
  destruct fn_presses_are_deduplicated as [_ [_ H]].
  apply (H 2%nat (new_GlobalHotkeyService None)). reflexivity.
Defined.

(** *** Accelerator strings *)

Lemma lowerChar_f c : lowerChar c = "f"%char -> c = "f"%char \/ c = "F"%char.
Proof.
  destruct c as [[] [] [] [] [] [] [] []]; vm_compute; intros H;
    try discriminate H; auto.
Qed.

Lemma lowerChar_n c : lowerChar c = "n"%char -> c = "n"%char \/ c = "N"%char.
Proof.
  destruct c as [[] [] [] [] [] [] [] []]; vm_compute; intros H;
    try discriminate H; auto.
Qed.

(** X22. The Fn accelerator, exactly: an accelerator denotes the Fn key
    if and only if, with the surrounding white space removed, it is one
    of ["fn"], ["Fn"], ["fN"], ["FN"]. *)
Theorem isFnAccelerator_exactly a :
  isFnAccelerator a = true
  <-> In (trim a) ["fn"; "Fn"; "fN"; "FN"].
Proof.
  unfold isFnAccelerator, toLowerCase. split.
  - intros H. apply String.eqb_eq in H.
    destruct (trim a) as [| c1 [| c2 [| c3 t]]]; simpl in H;
      try discriminate H.
    injection H as H1 H2.
    destruct (lowerChar_f c1 H1) as [-> | ->],
             (lowerChar_n c2 H2) as [-> | ->]; simpl; auto.
  - intros [<- | [<- | [<- | [<- | []]]]]; reflexivity.
Qed.

(** X23. Every accelerator the application offers passes its own
    validation: the default hotkey and each entry of
    [HOTKEY_PRESETS]. *)
Theorem presets_are_valid :
  validateAccelerator (accelerator DEFAULT_HOTKEY) = true
  /\ Forall (fun p => validateAccelerator (snd p) = true) HOTKEY_PRESETS.
Proof. split; [reflexivity | repeat constructor]. Qed.

Lemma includes_not_empty l x :
  includes l EmptyString = false -> includes l x = true -> x <> EmptyString.
Proof. intros H0 H ->. rewrite H0 in H. discriminate H. Qed.

(** X24. A valid accelerator has no empty token: unless it denotes the
    Fn key, every piece between plus signs is non-empty once trimmed,
    the last one is a key name (as written or in upper case) and the
    others are modifier names as written.  So the empty string, a
    leading, trailing or doubled plus sign are all rejected. *)
Theorem valid_accelerator_has_no_empty_token a :
  validateAccelerator a = true ->
  isFnAccelerator a = false ->
  Forall (fun t => t <> EmptyString) (tokens a)
  /\ (includes validKeys (last (tokens a) EmptyString) = true
      \/ includes validKeys (toUpperCase (last (tokens a) EmptyString)) = true)
  /\ Forall (fun t => includes validModifiers t = true)
            (removelast (tokens a)).
Proof.
  unfold validateAccelerator. intros H Hfn. rewrite Hfn in H.
  destruct (tokens a) as [| t0 ts] eqn:Et; [discriminate H |].
  simpl List.length in H. simpl Nat.eqb in H. cbv iota in H.
  set (parts := t0 :: ts) in *.
  assert (Hkey : includes validKeys (last parts EmptyString) = true
                 \/ includes validKeys
                      (toUpperCase (last parts EmptyString)) = true).
  { destruct (includes validKeys (last parts EmptyString)); [now left |].
    destruct (includes validKeys (toUpperCase (last parts EmptyString)));
      [now right | discriminate H]. }
  assert (Hmods : forallb (includes validModifiers) (removelast parts) = true).
  { destruct (negb _ && negb _); [discriminate H | exact H]. }
  assert (HmodsF : Forall (fun t => includes validModifiers t = true)
                          (removelast parts)).
  { apply Forall_forall. intros t Ht.
    now apply (proj1 (forallb_forall _ _) Hmods). }
  split; [| split; assumption].
  rewrite (app_removelast_last EmptyString (l := parts)) by discriminate.
  apply Forall_app. split.
  - apply Forall_forall. intros t Ht.
    apply (includes_not_empty validModifiers); [reflexivity |].
    now apply (proj1 (Forall_forall _ _) HmodsF).
  - constructor; [| constructor].
    destruct Hkey as [Hk | Hk].
    + now apply (includes_not_empty validKeys).
    + intros E. rewrite E in Hk. discriminate Hk.
Qed.

(** Tokens may be padded and a letter key may be in lower case;
    modifier names are taken as written. *)
Lemma valid_accelerator_has_no_empty_token_witness :
  tokens "Control + Shift+z" = ["Control"; "Shift"; "z"]
  /\ Forall (fun t => t <> EmptyString) (tokens "Control + Shift+z")
  /\ validateAccelerator "control+Z" = false
  /\ validateAccelerator "Control+" = false.
Proof.
  split; [reflexivity |].
  split; [| split; reflexivity].
  destruct (valid_accelerator_has_no_empty_token "Control + Shift+z")
    as [H _]; [reflexivity | reflexivity | exact H].
Defined.

(** X25. The conflict advisory and the tables agree: every system
    shortcut of the table is reported with its description, under its
    own spelling and under the [CmdOrCtrl] and [Ctrl] spellings; an Fn
    accelerator is never reported; and of the presets the application
    offers, exactly one, Ctrl+Space, is reported. *)
Theorem conflicts_cover_the_table :
  Forall (fun e => checkConflicts (fst e) = Some (snd e)) systemShortcuts
  /\ Forall (fun e =>
               checkConflicts
                 (replaceAll "CommandOrControl" "CmdOrCtrl" (fst e))
               = Some (snd e)) systemShortcuts
  /\ Forall (fun e =>
               checkConflicts (replaceAll "Control" "Ctrl" (fst e))
               = Some (snd e)) systemShortcuts
  /\ (forall a, isFnAccelerator a = true -> checkConflicts a = None)
  /\ map (fun p => checkConflicts (snd p)) HOTKEY_PRESETS
     = [None; None; None; Some "Input source switch"; None; None].
Proof.
  split; [| split; [| split; [| split]]];
    try (repeat constructor).
  intros a H. unfold checkConflicts. now rewrite H.
Qed.

Lemma conflicts_cover_the_table_witness :
  checkConflicts " fn " = None.
Proof.
  destruct conflicts_cover_the_table as [_ [_ [_ [H _]]]].
  apply H. reflexivity.
Defined.

End HotkeyOpsSpec.

(* ================================================================== *)
(** ** Properties of the widget windows                                *)
(* ================================================================== *)

Module DisplaysSpec.
Import Widget Displays.

Lemma has_false_not_in id rw :
  has id rw = false -> ~ In id (displayIds rw).
Proof.
  unfold has, displayIds. intros H Hin.
  apply in_map_iff in Hin as [e [He Hin]].
  assert (Ht : existsb (fun e => Nat.eqb (fst e) id) (widgets rw) = true).
  { apply existsb_exists. exists e. split; [exact Hin |].
    rewrite He. apply Nat.eqb_refl. }
  rewrite H in Ht. discriminate Ht.
Qed.

Lemma nodup_map_filter {A} (f : A -> nat) p (l : list A) :
  NoDup (map f l) -> NoDup (map f (filter p l)).
Proof.
  induction l as [| a l IH]; simpl; intros H; [constructor |].
  inversion H as [| ? ? Hn Hd]; subst.
  destruct (p a); simpl; [| now apply IH].
  constructor; [| now apply IH].
  intros Hin. apply Hn. apply in_map_iff in Hin as [x [Hx Hin]].
  apply filter_In in Hin as [Hin _]. apply in_map_iff. now exists x.
Qed.

Lemma widget_op_nodup o rw :
  NoDup (displayIds rw) -> NoDup (displayIds (widget_op o rw)).
Proof.
  unfold displayIds. intros H. destruct o; simpl.
  - unfold createWidgetForDisplay. destruct (has id rw) eqn:Eh; [exact H |].
    simpl. rewrite map_app. simpl. apply NoDup_app; [exact H | |].
    + constructor; [intros [] | constructor].
    + intros a Ha [E | []]. subst a.
      now apply (has_false_not_in id rw Eh).
  - now apply nodup_map_filter.
  - rewrite map_map.
    rewrite (map_ext _ fst); [exact H |].
    intros e. now destruct (Nat.eqb (fst e) id).
  - rewrite map_map. simpl. now apply nodup_map_filter.
  - constructor.
Qed.

Lemma init_ids ds :
  forall rw id,
    In id (displayIds (init ds rw)) <-> In id ds \/ In id (displayIds rw).
Proof.
  unfold init. induction ds as [| d ds IH]; intros rw id; simpl.
  - tauto.
  - rewrite IH. unfold createWidgetForDisplay, displayIds.
    destruct (has d rw) eqn:Eh; simpl.
    + split; [tauto |]. intros [[E | H] | H]; try tauto.
      subst d. right. unfold has in Eh.
      apply existsb_exists in Eh as [e [He Heq]].
      apply Nat.eqb_eq in Heq. subst id. now apply in_map.
    + rewrite map_app, in_app_iff. simpl. tauto.
Qed.

(** X26. One widget per display: over any sequence of displays being
    added and removed, windows being destroyed, state updates and
    [destroy()], no display id has two widget windows.  [init()]
    creates a widget for each connected display and for no other,
    however often a display is listed. *)
Theorem one_widget_per_display :
  (forall ops, NoDup (displayIds (widget_ops ops new_RecordingWidget)))
  /\ (forall displays,
        NoDup (displayIds (init displays new_RecordingWidget))
        /\ forall id, In id (displayIds (init displays new_RecordingWidget))
                      <-> In id displays).
Proof.
  assert (Hops : forall ops rw,
             NoDup (displayIds rw) -> NoDup (displayIds (widget_ops ops rw))).
  { unfold widget_ops. induction ops as [| o ops IH]; intros rw H; simpl;
      [exact H |]. apply IH. now apply widget_op_nodup. }
  split.
  - intros ops. apply Hops. constructor.
  - intros displays. split.
    + assert (E : init displays new_RecordingWidget
                  = widget_ops (map DisplayAdded displays) new_RecordingWidget).
      { unfold init, widget_ops. generalize new_RecordingWidget.
        induction displays as [| d ds IH]; intros rw; simpl;
          [reflexivity | apply IH]. }
      rewrite E. apply Hops. constructor.
    + intros id. rewrite init_ids. simpl. tauto.
Qed.

(** X27. [updateAllWidgets(state)] reaches exactly the live windows:
    every window that is not destroyed stays, with [state] appended to
    what it had received; every window that is left is not destroyed
    and is such a window; destroyed windows are dropped from the map;
    and the state is remembered even when no window is left. *)
Theorem update_reaches_live_windows state rw :
  (forall id win,
     In (id, win) (widgets rw) -> isDestroyed win = false ->
     In (id, mkWindow false (received win ++ [state]))
        (widgets (updateAllWidgets state rw)))
  /\ (forall id win',
        In (id, win') (widgets (updateAllWidgets state rw)) ->
        isDestroyed win' = false
        /\ exists win, In (id, win) (widgets rw)
                       /\ isDestroyed win = false
                       /\ received win' = received win ++ [state])
  /\ (List.length (widgets (updateAllWidgets state rw))
      <= List.length (widgets rw))%nat
  /\ currentState (updateAllWidgets state rw) = state.
Proof.
  unfold updateAllWidgets; simpl. split; [| split; [| split]].
  - intros id win Hin Hd. apply in_map_iff.
    exists (id, win). split.
    + simpl. unfold send. now rewrite Hd.
    + apply filter_In. split; [exact Hin |]. simpl. now rewrite Hd.
  - intros id win' Hin. apply in_map_iff in Hin as [[id0 win] [He Hin]].
    apply filter_In in Hin as [Hin Hd]. simpl in He, Hd.
    injection He as -> <-. apply negb_true_iff in Hd.
    split; [exact Hd |]. exists win. repeat split; assumption.
  - rewrite length_map. apply filter_length_le.
  - reflexivity.
Qed.

Lemma update_reaches_live_windows_witness :
  widgets (updateAllWidgets w_recording (mkWidget Orchestrator.two_displays
                                                  w_idle))
  = [(1%nat, mkWindow false [w_recording])]
  /\ In (1%nat, mkWindow false ([] ++ [w_recording]))
        (widgets (updateAllWidgets w_recording
                    (mkWidget Orchestrator.two_displays w_idle))).
Proof.
  split; [reflexivity |].
  destruct (update_reaches_live_windows w_recording
              (mkWidget Orchestrator.two_displays w_idle)) as [H _].
  apply (H 1%nat (mkWindow false [])); [left; reflexivity | reflexivity].
Defined.

(** X28. The widget sits in the bottom-right corner of the work area:
    its 60 x 60 square ends 20 pixels before the right and the bottom
    edge, and lies inside the work area whenever the work area is at
    least 80 pixels wide and high. *)
Theorem widget_sits_in_corner workArea :
  let '(x, y) := getBottomRightPosition workArea in
  x + 60 + 20 = rx workArea + rwidth workArea
  /\ y + 60 + 20 = ry workArea + rheight workArea
  /\ (80 <= rwidth workArea -> 80 <= rheight workArea ->
      rx workArea <= x /\ x + 60 <= rx workArea + rwidth workArea
      /\ ry workArea <= y /\ y + 60 <= ry workArea + rheight workArea).
Proof.
  destruct workArea as [ax ay aw ah]. unfold getBottomRightPosition; simpl.
  lia.
Qed.

Lemma widget_sits_in_corner_witness :
  getBottomRightPosition (mkRect 0 25 1440 875) = (1360, 820)
  /\ 0 <= 1360.
Proof.
  split; [reflexivity |].
  pose proof (widget_sits_in_corner (mkRect 0 25 1440 875)) as H.
  simpl in H. destruct H as [_ [_ H]].
  destruct H as [H _]; [lia | lia | exact H].
Defined.

End DisplaysSpec.
